(** * ai-autograder: the grading core, embedded and verified

    The development follows [src/lib/grading/deterministicGrader.ts]
    ([parseNumber], [normalizeAlgebraExpression], [gradeDeterministic],
    [gradeWithLLM]), [src/lib/grading/types.ts] and the answer classifier
    [getAnswerType] of the teacher assignment page.

    The TypeScript code works on JavaScript strings (sequences of UTF-16 code
    units), on regular expressions and on IEEE-754 binary64 numbers.  Each of
    these is modelled as the language defines it:
    - a string is a list of code units ([N]);
    - a regular expression is a term of a small abstract syntax, run by a
      backtracking matcher with captures (the constructs used by the source,
      no more);
    - a number is a [spec_float] at precision 53 and maximal exponent 1024,
      and [Number(string)] rounds the decimal value to the nearest double. *)

From Stdlib Require Import String Ascii.
From Stdlib Require Import ZArith NArith PArith List Bool Lia.
From Stdlib Require Import Floats.SpecFloat Floats.PrimFloat Floats.FloatOps.
Import ListNotations.


(* ================================================================= *)
(** * JavaScript strings *)

Module JS.

Local Open Scope N_scope.

Definition code := N.
Bind Scope N_scope with code.
Definition jsstring := list code.

(** Decoding of a UTF-8 byte sequence into UTF-16 code units; it is only used
    to write string constants of the source in this file. *)
Fixpoint utf8 (bs : list N) : jsstring :=
  match bs with
  | [] => []
  | b :: r =>
      if (b <? 0x80)%N then b :: utf8 r
      else if (b <? 0xE0)%N then
        match r with
        | b1 :: r1 => ((b mod 0x20) * 64 + b1 mod 64)%N :: utf8 r1
        | [] => [b]
        end
      else if (b <? 0xF0)%N then
        match r with
        | b1 :: b2 :: r2 =>
            ((b mod 0x10) * 4096 + (b1 mod 64) * 64 + b2 mod 64)%N :: utf8 r2
        | _ => [b]
        end
      else
        match r with
        | b1 :: b2 :: b3 :: r3 =>
            let cp := ((b mod 8) * 262144 + (b1 mod 64) * 4096
                       + (b2 mod 64) * 64 + b3 mod 64 - 0x10000)%N in
            (0xD800 + cp / 1024)%N :: (0xDC00 + cp mod 1024)%N :: utf8 r3
        | _ => [b]
        end
  end.

Definition u16 (s : string) : jsstring :=
  utf8 (map N_of_ascii (list_ascii_of_string s)).
Arguments u16 : simpl never.

(** [===] on strings. *)
Fixpoint streq (a b : jsstring) : bool :=
  match a, b with
  | [], [] => true
  | x :: a', y :: b' => (x =? y)%N && streq a' b'
  | _, _ => false
  end.

(** [Array.prototype.includes] on an array of strings. *)
Definition includes (l : list jsstring) (s : jsstring) : bool :=
  existsb (fun x => streq x s) l.

(** Truthiness of a string: [!!s]. *)
Definition truthy (s : jsstring) : bool :=
  match s with [] => false | _ => true end.

(** WhiteSpace and LineTerminator code units: the set removed by
    [String.prototype.trim], matched by [\s] and skipped by [Number]. *)
Definition isWhiteSpace (c : code) : bool :=
  ((9 <=? c) && (c <=? 13) || (c =? 0x20) || (c =? 0xA0) || (c =? 0x1680)
   || (0x2000 <=? c) && (c <=? 0x200A) || (c =? 0x2028) || (c =? 0x2029)
   || (c =? 0x202F) || (c =? 0x205F) || (c =? 0x3000) || (c =? 0xFEFF))%N.

Fixpoint trimStart (s : jsstring) : jsstring :=
  match s with
  | c :: s' => if isWhiteSpace c then trimStart s' else s
  | [] => []
  end.

Definition trimEnd (s : jsstring) : jsstring := rev (trimStart (rev s)).

Definition trim (s : jsstring) : jsstring := trimEnd (trimStart s).

Definition inRange (lo hi c : code) : bool := ((lo <=? c) && (c <=? hi))%N.

Definition isDigit : code -> bool := inRange 0x30 0x39.     (* \d, [0-9] *)
Definition isLower : code -> bool := inRange 0x61 0x7A.     (* [a-z] *)
Definition isUpper : code -> bool := inRange 0x41 0x5A.     (* [A-Z] *)
Definition isLetter (c : code) : bool := isLower c || isUpper c. (* [a-zA-Z] *)

(** [String.prototype.toLowerCase], one code unit at a time.  Basic Latin,
    Latin-1, the Greek and Cyrillic capitals and the letter-like signs that
    lower-case into Basic Latin or Latin-1 are mapped as Unicode does; the
    other code units are left as they are (the whole Unicode table and the
    final-sigma rule are not reproduced). *)
Definition lowerUnit (c : code) : jsstring :=
  if isUpper c then [c + 32]
  else if inRange 0xC0 0xDE c && negb (c =? 0xD7) then [c + 32]
  else if inRange 0x391 0x3A9 c && negb (c =? 0x3A2) then [c + 32]
  else if inRange 0x410 0x42F c then [c + 32]
  else if inRange 0x400 0x40F c then [c + 80]
  else if c =? 0x130 then [0x69; 0x307]
  else if c =? 0x212A then [0x6B]
  else if c =? 0x212B then [0xE5]
  else if c =? 0x2126 then [0x3C9]
  else [c].

Definition toLowerCase (s : jsstring) : jsstring := flat_map lowerUnit s.

(** [String.prototype.split] with a one-unit separator. *)
Fixpoint split (sep : code) (s : jsstring) : list jsstring :=
  match s with
  | [] => [[]]
  | c :: s' =>
      if (c =? sep)%N then [] :: split sep s'
      else match split sep s' with
           | w :: ws => (c :: w) :: ws
           | [] => [[c]]
           end
  end.

End JS.
Import JS.

(* ================================================================= *)
(** * Regular expressions *)

Module RegExp.

(** The constructs the source's patterns are built from.  A quantifier is
    always applied to a character class there, so [Star] takes a class. *)
Inductive regex : Type :=
| Eps
| Cls (c : code -> bool)
| Seq (r1 r2 : regex)
| Alt (r1 r2 : regex)
| Star (c : code -> bool)
| Grp (i : nat) (r : regex)
| NotAhead (r : regex)
| Bol
| Eol.

Definition Chr (x : code) : regex := Cls (N.eqb x).
Definition Plus (c : code -> bool) : regex := Seq (Cls c) (Star c).
Definition Opt (r : regex) : regex := Alt r Eps.

Fixpoint Lit (s : jsstring) : regex :=
  match s with
  | [] => Eps
  | [x] => Chr x
  | x :: s' => Seq (Chr x) (Lit s')
  end.

Definition Str (s : string) : regex := Lit (u16 s).

(** Canonicalisation of the [i] flag (no [u] flag): a code unit is compared
    by its upper-case form, and a unit outside Basic Latin is never folded
    into Basic Latin. *)
Definition canonicalize (c : code) : code :=
  if isLower c then (c - 32)%N else c.

Definition ignoreCase (cl : code -> bool) : code -> bool :=
  fun c => cl (canonicalize c).

(** Captures: the latest binding of a group comes first. *)
Definition caps := list (nat * jsstring).

Fixpoint getcap (i : nat) (cs : caps) : jsstring :=
  match cs with
  | [] => []
  | (j, v) :: cs' => if Nat.eqb i j then v else getcap i cs'
  end.

(** A matcher state is the input already consumed (latest unit first) and the
    input still to read; a continuation receives the state and the captures. *)
Definition K (R : Type) := jsstring -> jsstring -> caps -> option R.

Fixpoint starK {R} (c : code -> bool) (k : K R)
    (seen rest : jsstring) (cs : caps) : option R :=
  match rest with
  | x :: rest' =>
      if c x then
        match starK c k (x :: seen) rest' cs with
        | Some r => Some r
        | None => k seen rest cs
        end
      else k seen rest cs
  | [] => k seen rest cs
  end.

Fixpoint m {R} (r : regex) (k : K R)
    (seen rest : jsstring) (cs : caps) {struct r} : option R :=
  match r with
  | Eps => k seen rest cs
  | Cls c =>
      match rest with
      | x :: rest' => if c x then k (x :: seen) rest' cs else None
      | [] => None
      end
  | Seq r1 r2 => m r1 (m r2 k) seen rest cs
  | Alt r1 r2 =>
      match m r1 k seen rest cs with
      | Some x => Some x
      | None => m r2 k seen rest cs
      end
  | Star c => starK c k seen rest cs
  | Grp i r1 =>
      m r1 (fun seen' rest' cs' =>
              k seen' rest'
                ((i, rev (firstn (length seen' - length seen) seen')) :: cs'))
        seen rest cs
  | NotAhead r1 =>
      match m r1 (fun _ _ _ => Some tt) seen rest cs with
      | Some _ => None
      | None => k seen rest cs
      end
  | Bol => match seen with [] => k seen rest cs | _ => None end
  | Eol => match rest with [] => k seen rest cs | _ => None end
  end.

(** One match attempt at the current position: the end state and captures. *)
Definition execAt (r : regex) (seen rest : jsstring)
  : option (jsstring * jsstring * caps) :=
  m r (fun s' r' cs => Some (s', r', cs)) seen rest [].

(** The leftmost match at or after the current position. *)
Fixpoint search (r : regex) (seen rest : jsstring)
  : option (jsstring * jsstring * caps) :=
  match execAt r seen rest with
  | Some x => Some x
  | None =>
      match rest with
      | [] => None
      | x :: rest' => search r (x :: seen) rest'
      end
  end.

(** [RegExp.prototype.test]. *)
Definition test (r : regex) (s : jsstring) : bool :=
  match search r [] s with Some _ => true | None => false end.

(** Replacement templates: text and [$n]. *)
Inductive titem : Type := T (s : string) | G (i : nat).

Fixpoint expand (tpl : list titem) (cs : caps) : jsstring :=
  match tpl with
  | [] => []
  | T s :: tpl' => u16 s ++ expand tpl' cs
  | G i :: tpl' => getcap i cs ++ expand tpl' cs
  end.

(** [String.prototype.replace] with a global pattern.  [skip] counts the
    units of the last match that are still to be passed over. *)
Fixpoint replaceGo (r : regex) (tpl : list titem)
    (seen rest : jsstring) (skip : nat) {struct rest} : jsstring :=
  match rest with
  | [] =>
      match skip with
      | S _ => []
      | O => match execAt r seen [] with
             | Some (_, _, cs) => expand tpl cs
             | None => []
             end
      end
  | x :: rest' =>
      match skip with
      | S n => replaceGo r tpl (x :: seen) rest' n
      | O =>
          match execAt r seen rest with
          | Some (seen', _, cs) =>
              match length seen' - length seen with
              | O => expand tpl cs ++ x :: replaceGo r tpl (x :: seen) rest' 0
              | S n => expand tpl cs ++ replaceGo r tpl (x :: seen) rest' n
              end
          | None => x :: replaceGo r tpl (x :: seen) rest' 0
          end
      end
  end.

Definition replaceAll (r : regex) (tpl : list titem) (s : jsstring) : jsstring :=
  replaceGo r tpl [] s 0.

End RegExp.
Import RegExp.

(* ================================================================= *)
(** * JavaScript numbers *)

Module Num.

Local Open Scope Z_scope.

(** A Number is an IEEE-754 binary64 value. *)
Definition number := spec_float.
Definition prec : Z := 53.
Definition emax : Z := 1024.

Definition NaN : number := S754_nan.
Definition zero : number := S754_zero false.

Definition sub : number -> number -> number := SFsub prec emax.   (* a - b *)
Definition mul : number -> number -> number := SFmul prec emax.   (* a * b *)
Definition div : number -> number -> number := SFdiv prec emax.   (* a / b *)
Definition abs : number -> number := SFabs.                       (* Math.abs *)
Definition leb : number -> number -> bool := SFleb.               (* a <= b *)
Definition ltb : number -> number -> bool := SFltb.               (* a < b *)
Definition geb (a b : number) : bool := SFleb b a.                (* a >= b *)
Definition eqb : number -> number -> bool := SFeqb.               (* a === b *)

(** [Number.isFinite]. *)
Definition isFinite (x : number) : bool :=
  match x with
  | S754_zero _ | S754_finite _ _ _ => true
  | S754_infinity _ | S754_nan => false
  end.

(** [Math.max] of two arguments: NaN if either is, and +0 above -0. *)
Definition max (a b : number) : number :=
  match SFcompare a b with
  | None => NaN
  | Some Lt => b
  | Some Gt => a
  | Some Eq => match a with S754_zero true => b | _ => a end
  end.

(** The double nearest to [mant * 10^e10] (ties to even), with the sign
    [neg].  For a negative exponent the quotient is computed with more than
    64 significant bits and a sticky bit, which rounds as the exact value. *)
Definition ofDecimal (neg : bool) (mant : N) (e10 : Z) : number :=
  match mant with
  | N0 => S754_zero neg
  | Npos p =>
      let r :=
        if 0 <=? e10 then binary_normalize prec emax (Zpos p * 10 ^ e10) 0 false
        else
          let d := 10 ^ (- e10) in
          let sh := Z.max 0 (Z.log2 d + 65 - Z.log2 (Zpos p)) in
          let n := Zpos p * 2 ^ sh in
          let sticky := if n mod d =? 0 then 0 else 1 in
          binary_normalize prec emax (2 * (n / d) + sticky) (- (sh + 1)) false
      in if neg then SFopp r else r
  end.

(** The double nearest to a natural number written in a radix. *)
Definition ofInteger (n : N) : number :=
  binary_normalize prec emax (Z.of_N n) 0 false.

Definition digitVal (c : code) : N := (c - 0x30)%N.

Definition digitsVal (s : jsstring) : N :=
  fold_left (fun a c => (a * 10 + digitVal c)%N) s 0%N.

Fixpoint span (p : code -> bool) (s : jsstring) : jsstring * jsstring :=
  match s with
  | c :: s' => if p c then let '(a, b) := span p s' in (c :: a, b) else ([], s)
  | [] => ([], [])
  end.

Definition isSignUnit (c : code) : bool := ((c =? 0x2B) || (c =? 0x2D))%N.  (* [-+] *)

(** An optional sign: is it a minus, and what follows. *)
Definition optSign (s : jsstring) : bool * jsstring :=
  match s with
  | c :: s' => if isSignUnit c then ((c =? 0x2D)%N, s') else (false, s)
  | [] => (false, [])
  end.

(** [0x], [0o] and [0b] integer literals (no sign allowed). *)
Definition radixDigit (radix c : code) : option N :=
  let v := if isDigit c then Some (c - 0x30)%N
           else if inRange 0x61 0x66 c then Some (c - 0x61 + 10)%N
           else if inRange 0x41 0x46 c then Some (c - 0x41 + 10)%N
           else None in
  match v with
  | Some d => if (d <? radix)%N then Some d else None
  | None => None
  end.

Fixpoint radixVal (radix : N) (acc : N) (s : jsstring) : option N :=
  match s with
  | [] => Some acc
  | c :: s' =>
      match radixDigit radix c with
      | Some d => radixVal radix (acc * radix + d)%N s'
      | None => None
      end
  end.

Definition nonDecimal (t : jsstring) : option number :=
  match t with
  | z :: x :: (_ :: _) as ds =>
      if (z =? 0x30)%N then
        let radix := if ((x =? 0x78) || (x =? 0x58))%N then Some 16%N
                     else if ((x =? 0x6F) || (x =? 0x4F))%N then Some 8%N
                     else if ((x =? 0x62) || (x =? 0x42))%N then Some 2%N
                     else None in
        match radix with
        | Some rdx =>
            Some match radixVal rdx 0%N ds with
                 | Some n => ofInteger n
                 | None => NaN
                 end
        | None => None
        end
      else None
  | _ => None
  end.

(** [StrDecimalLiteral]: sign, then [Infinity] or digits with an optional
    fraction and an optional exponent. *)
Definition decimal (t : jsstring) : number :=
  let '(neg, u) := optSign t in
  if streq u (u16 "Infinity") then S754_infinity neg
  else
    let '(ip, r1) := span isDigit u in
    let '(fp, r2) :=
      match r1 with
      | c :: r => if (c =? 0x2E)%N then span isDigit r else ([], r1)
      | [] => ([], [])
      end in
    match ip ++ fp with
    | [] => NaN
    | ds =>
        let scale := - Z.of_nat (List.length fp) in
        match r2 with
        | [] => ofDecimal neg (digitsVal ds) scale
        | e :: r3 =>
            if ((e =? 0x65) || (e =? 0x45))%N then
              let '(eneg, ed) := optSign r3 in
              match ed with
              | [] => NaN
              | _ =>
                  if forallb isDigit ed then
                    let ev := Z.of_N (digitsVal ed) in
                    ofDecimal neg (digitsVal ds) ((if eneg then - ev else ev) + scale)
                  else NaN
              end
            else NaN
        end
    end.

(** [Number(string)]: the StringToNumber conversion. *)
Definition Number (s : jsstring) : number :=
  match trim s with
  | [] => zero
  | t => match nonDecimal t with
         | Some v => v
         | None => decimal t
         end
  end.

(** A numeric literal of the source. *)
Definition lit (s : string) : number := Number (u16 s).
Arguments lit : simpl never.

End Num.
Import Num.

(* ================================================================= *)
(** * Grading types ([types.ts]) *)

Inductive GradeResult : Type := PASS | FAIL | REVIEW.

Inductive Kind : Type := numeric | mc | short | algebra.

Definition kind_eqb (a b : Kind) : bool :=
  match a, b with
  | numeric, numeric | mc, mc | short, short | algebra, algebra => true
  | _, _ => false
  end.

Inductive Source : Type := vision | typed | typed_fallback.

Module NumericPayload.
Record t := { num : jsstring; units : option jsstring }.
End NumericPayload.

Module MCPayload.
Record t := { choice : jsstring }.
End MCPayload.

Module ShortPayload.
Record t := { text : jsstring }.
End ShortPayload.

Module AlgebraPayload.
Record t := { expression : jsstring }.
End AlgebraPayload.

Module SubmissionPayload.
Record t := {
    source : Source;
    type : Kind;
    numeric : option NumericPayload.t;
    mc : option MCPayload.t;
    short : option ShortPayload.t;
    algebra : option AlgebraPayload.t;
    ocrConf : option number
  }.
End SubmissionPayload.

Module GradeResponse.
Record t := { result : GradeResult; score : number; reasons : list jsstring }.
End GradeResponse.

Module CanonicalNumeric.
Record t := { num : jsstring; units : option jsstring; tolerance : option number }.
End CanonicalNumeric.

Module CanonicalShort.
Record t := { text : jsstring; synonyms : option (list jsstring) }.
End CanonicalShort.

Module CanonicalAlgebra.
Record t := { expression : jsstring; synonyms : option (list jsstring) }.
End CanonicalAlgebra.

(** A canonical value is a structured object or a bare string. *)
Inductive OrString (A : Type) : Type :=
| Obj (o : A)
| Bare (s : jsstring).
Arguments Obj {A} o.
Arguments Bare {A} s.

Inductive Canonical : Type :=
| CNumeric (value : OrString CanonicalNumeric.t)
| CMc (value : jsstring)
| CShort (value : OrString CanonicalShort.t)
| CAlgebra (value : OrString CanonicalAlgebra.t).

Definition canonicalType (c : Canonical) : Kind :=
  match c with
  | CNumeric _ => numeric
  | CMc _ => mc
  | CShort _ => short
  | CAlgebra _ => algebra
  end.

(* ================================================================= *)
(** * The deterministic grader ([deterministicGrader.ts]) *)

Module Grader.

Import GradeResponse.

Declare Scope regex_scope.
Delimit Scope regex_scope with re.
Infix "++>" := Seq (at level 60, right associativity) : regex_scope.
Infix "<|>" := Alt (at level 70, right associativity) : regex_scope.
Local Open Scope regex_scope.

(** Code units named by the patterns. *)
Definition SLASH : code := 0x2F.
Definition DOT : code := 0x2E.
Definition LPAREN : code := 0x28.
Definition RPAREN : code := 0x29.
Definition RADIC : code := 0x221A.      (* square root sign *)
Definition CUBERT : code := 0x221B.     (* cube root sign *)
Definition PI : code := 0x3C0.
Definition INFTY : code := 0x221E.
Definition TIMES : code := 0xD7.
Definition MIDDOT : code := 0xB7.
Definition BULLET : code := 0x2022.
Definition OBELUS : code := 0xF7.       (* division sign *)

(** [/^[-+]?\d+\/\d+$/] *)
Definition fractionBodyRe : regex :=
  Opt (Cls isSignUnit) ++> Plus isDigit ++> Chr SLASH ++> Plus isDigit.

Definition fractionRe : regex := Bol ++> fractionBodyRe ++> Eol.

Definition parseNumber (input : jsstring) : option number :=
  let trimmed := trim input in
  (* Accept fractions like 3/4 *)
  if test fractionRe trimmed then
    match map Number (split SLASH trimmed) with
    | n :: d :: _ =>
        if negb (isFinite n) || negb (isFinite d) || eqb d zero then None
        else Some (div n d)
    | _ => None
    end
  else
    (* Scientific and decimal *)
    let num := Number trimmed in
    if isFinite num then Some num else None.

(** The superscript digits, with the digit each stands for. *)
Definition superscripts : list (code * string) :=
  [ (0xB2%N, "^2"); (0xB3%N, "^3"); (0x2074%N, "^4"); (0x2075%N, "^5");
    (0x2076%N, "^6"); (0x2077%N, "^7"); (0x2078%N, "^8"); (0x2079%N, "^9");
    (0x2070%N, "^0"); (0xB9%N, "^1") ]%string.

Definition normalizeAlgebraExpression (expr : jsstring) : jsstring :=
  let result := toLowerCase (trim expr) in
  (* Convert Unicode symbols to ASCII equivalents *)
  let result := replaceAll (Chr RADIC ++> Grp 1 (Plus isDigit)) [T "sqrt("; G 1; T ")"] result in
  let result := replaceAll (Chr RADIC ++> Grp 1 (Cls isLetter)) [T "sqrt("; G 1; T ")"] result in
  let result := replaceAll (Chr RADIC ++> Chr LPAREN
                            ++> Grp 1 (Plus (fun c => negb (c =? RPAREN)%N)) ++> Chr RPAREN)
                  [T "sqrt("; G 1; T ")"] result in
  let result := replaceAll (Chr RADIC) [T "sqrt"] result in
  let result := replaceAll (Chr CUBERT) [T "cbrt"] result in
  let result := replaceAll (Chr PI) [T "pi"] result in
  let result := replaceAll (Chr INFTY) [T "infinity"] result in
  let result := fold_left (fun acc g => replaceAll (Chr (fst g)) [T (snd g)] acc)
                  superscripts result in
  (* Normalize multiplication symbols *)
  let result := replaceAll (Chr TIMES) [T "*"] result in
  let result := replaceAll (Chr MIDDOT) [T "*"] result in
  let result := replaceAll (Chr BULLET) [T "*"] result in
  (* Normalize division symbols *)
  let result := replaceAll (Chr OBELUS) [T "/"] result in
  (* Normalize sqrt() notation - ensure parentheses *)
  let result := replaceAll (Str "sqrt" ++> Grp 1 (Plus isDigit)) [T "sqrt("; G 1; T ")"] result in
  let result := replaceAll (Str "sqrt" ++> Grp 1 (Cls isLetter)) [T "sqrt("; G 1; T ")"] result in
  (* Remove all spaces first, then add explicit multiplication where needed *)
  let result := replaceAll (Plus isWhiteSpace) [] result in
  (* Add multiplication between number and variable/function *)
  let result := replaceAll (Grp 1 (Plus isDigit) ++> Grp 2 (Cls isLower)) [G 1; T "*"; G 2] result in
  (* Add multiplication between variable and number *)
  let result := replaceAll (Grp 1 (Cls isLower) ++> Grp 2 (Plus isDigit)) [G 1; T "*"; G 2] result in
  (* Add multiplication between adjacent variables *)
  let result := replaceAll (Grp 1 (Cls isLower) ++> Grp 2 (Cls isLower) ++> NotAhead (Cls isLower))
                  [G 1; T "*"; G 2] result in
  result.

Definition respond (r : GradeResult) (s : number) (rs : list jsstring) : GradeResponse.t :=
  {| result := r; score := s; reasons := rs |}.

(** [a && a === b] for an optional string [a] and a string [b]. *)
Definition sameUnits (sUnits : option jsstring) (cUnits : jsstring) : bool :=
  match sUnits with
  | Some u => truthy u && streq u cUnits
  | None => false
  end.

Definition orEmpty (o : option (list jsstring)) : list jsstring :=
  match o with Some l => l | None => [] end.

Definition gradeDeterministic (payload : SubmissionPayload.t) (canonical : Canonical)
  : GradeResponse.t :=
  if negb (kind_eqb (SubmissionPayload.type payload) (canonicalType canonical)) then
    respond REVIEW (lit "0") [u16 "TYPE_MISMATCH"]
  else
    match SubmissionPayload.type payload, canonical with
    | numeric, CNumeric value =>
        let cVal := match value with Bare s => s | Obj o => CanonicalNumeric.num o end in
        let cUnits := match value with Bare _ => None | Obj o => CanonicalNumeric.units o end in
        let customTolerance :=
          match value with Bare _ => None | Obj o => CanonicalNumeric.tolerance o end in
        let sText := match SubmissionPayload.numeric payload with
                     | Some n => NumericPayload.num n | None => [] end in
        let sUnits := match SubmissionPayload.numeric payload with
                      | Some n => NumericPayload.units n | None => None end in
        match parseNumber sText, parseNumber cVal with
        | Some sNum, Some cNum =>
            (* Use custom tolerance if provided, otherwise use automatic tolerance *)
            let tol := match customTolerance with
                       | Some t => t
                       | None => max (mul (abs cNum) (lit "0.005"))
                                     (if ltb (abs cNum) (lit "1") then lit "0.01" else lit "0")
                       end in
            let within := leb (abs (sub sNum cNum)) tol in
            let reasons :=
              if within then
                [match customTolerance with
                 | Some _ => u16 "NUM_WITHIN_CUSTOM_TOL"
                 | None => u16 "NUM_WITHIN_AUTO_TOL"
                 end]
              else [] in
            let reasons :=
              match cUnits with
              | Some cu =>
                  if truthy cu then
                    if sameUnits sUnits cu then reasons ++ [u16 "UNITS_OK"]
                    else reasons ++ [u16 "UNITS_MISSING_OR_MISMATCH"]
                  else reasons
              | None => reasons
              end in
            respond (if within then PASS else FAIL)
                    (if within then lit "1" else lit "0") reasons
        | _, _ => respond REVIEW (lit "0") [u16 "NUM_PARSE_FAIL"]
        end
    | mc, CMc value =>
        let correct := trim value in
        let choice := trim (match SubmissionPayload.mc payload with
                            | Some c => MCPayload.choice c | None => [] end) in
        let pass := truthy choice && streq choice correct in
        respond (if pass then PASS else FAIL) (if pass then lit "1" else lit "0")
                [if pass then u16 "MC_MATCH" else u16 "MC_MISMATCH"]
    | short, CShort base =>
        let correct :=
          toLowerCase (trim (match base with Bare s => s | Obj o => CanonicalShort.text o end)) in
        let synonyms :=
          match base with Bare _ => [] | Obj o => orEmpty (CanonicalShort.synonyms o) end in
        let submitted :=
          toLowerCase (trim (match SubmissionPayload.short payload with
                             | Some s => ShortPayload.text s | None => [] end)) in
        let pass := truthy submitted && (streq submitted correct || includes synonyms submitted) in
        respond (if pass then PASS else FAIL) (if pass then lit "1" else lit "0")
                [if pass then u16 "SHORT_MATCH" else u16 "SHORT_MISMATCH"]
    | algebra, CAlgebra base =>
        let correct :=
          trim (match base with Bare s => s | Obj o => CanonicalAlgebra.expression o end) in
        let synonyms :=
          match base with
          | Bare _ => []
          | Obj o => map trim (orEmpty (CanonicalAlgebra.synonyms o))
          end in
        let submitted :=
          trim (match SubmissionPayload.algebra payload with
                | Some a => AlgebraPayload.expression a | None => [] end) in
        let normalizedSubmitted := normalizeAlgebraExpression submitted in
        let normalizedCorrect := normalizeAlgebraExpression correct in
        let normalizedSynonyms := map normalizeAlgebraExpression synonyms in
        let pass := truthy normalizedSubmitted
                    && (streq normalizedSubmitted normalizedCorrect
                        || includes normalizedSynonyms normalizedSubmitted) in
        respond (if pass then PASS else FAIL) (if pass then lit "1" else lit "0")
                [if pass then u16 "ALGEBRA_MATCH" else u16 "ALGEBRA_MISMATCH"]
    | _, _ => respond REVIEW (lit "0") [u16 "UNHANDLED_TYPE"]
    end.

(** ** The orchestrator

    [gradeWithLLM] is asynchronous: it may await [matchAlgebraExpressions]
    once.  The oracle is an external service, so the function is embedded as
    a computation that either returns, or performs the call and continues
    with its outcome (a value, or a raised error). *)

Inductive OracleOutcome : Type :=
| Resolved (match_ : bool) (confidence : number) (reason : jsstring)
| Threw.

Record OracleCall : Type :=
  { submitted : jsstring; correct : jsstring; synonyms : list jsstring }.

Inductive Async (A : Type) : Type :=
| Return (a : A)
| Await (call : OracleCall) (k : OracleOutcome -> A).
Arguments Return {A} a.
Arguments Await {A} call k.

(** Running a computation against an oracle: the value and the calls made. *)
Definition run {A} (oracle : OracleCall -> OracleOutcome) (c : Async A) : A :=
  match c with
  | Return a => a
  | Await call k => k (oracle call)
  end.

Definition calls {A} (c : Async A) : list OracleCall :=
  match c with
  | Return _ => []
  | Await call _ => [call]
  end.

Definition gradeWithLLM (payload : SubmissionPayload.t) (canonical : Canonical)
  : Async GradeResponse.t :=
  (* Handle all non-algebra types with deterministic grading *)
  match SubmissionPayload.type payload, canonical with
  | algebra, CAlgebra base =>
      (* Special LLM handling for algebra *)
      let correct :=
        trim (match base with Bare s => s | Obj o => CanonicalAlgebra.expression o end) in
      let synonyms :=
        match base with
        | Bare _ => []
        | Obj o => map trim (orEmpty (CanonicalAlgebra.synonyms o))
        end in
      let submitted :=
        trim (match SubmissionPayload.algebra payload with
              | Some a => AlgebraPayload.expression a | None => [] end) in
      if negb (truthy submitted) then
        Return (respond FAIL (lit "0") [u16 "EMPTY_SUBMISSION"])
      else
        Await {| submitted := submitted; correct := correct; synonyms := synonyms |}
          (fun outcome =>
             match outcome with
             | Resolved match_ confidence reason =>
                 (* Require high confidence for PASS *)
                 if match_ && geb confidence (lit "0.9") then
                   respond PASS (lit "1") [u16 "ALGEBRA_LLM_MATCH: " ++ reason]
                 else if match_ && geb confidence (lit "0.7") then
                   respond REVIEW (lit "0.5") [u16 "ALGEBRA_LLM_UNCERTAIN: " ++ reason]
                 else
                   respond FAIL (lit "0") [u16 "ALGEBRA_LLM_MISMATCH: " ++ reason]
             | Threw =>
                 (* Fallback to deterministic grading *)
                 gradeDeterministic payload canonical
             end)
  | _, _ => Return (gradeDeterministic payload canonical)
  end.

End Grader.

(* ================================================================= *)
(** * The answer classifier ([getAnswerType], teacher assignment page) *)

Module Classifier.

Import Grader.
Local Open Scope regex_scope.

Inductive AnswerType : Type :=
| Detected (k : Kind)
| unknown.

(** [/^[A-D]$/i] *)
Definition choiceBodyRe : regex := Cls (ignoreCase (inRange 0x41 0x44)).

Definition choiceRe : regex := Bol ++> choiceBodyRe ++> Eol.

(** [/^[-+]?((\d+\.?\d* )|(\d*\.?\d+))(e[-+]?\d+)?$/] (a space added before one parenthesis) *)
Definition mantissaRe : regex :=
  Grp 1 (Grp 2 (Plus isDigit ++> Opt (Chr DOT) ++> Star isDigit)
         <|> Grp 3 (Star isDigit ++> Opt (Chr DOT) ++> Plus isDigit)).

Definition exponentRe : regex :=
  Opt (Grp 4 (Chr 0x65 ++> Opt (Cls isSignUnit) ++> Plus isDigit)).

Definition numberBodyRe : regex :=
  Opt (Cls isSignUnit) ++> mantissaRe ++> exponentRe.

Definition numberRe : regex := Bol ++> numberBodyRe ++> Eol.

(** [/[a-z]|√|∛|π|∞|\^|\*\*|sin|cos|tan|log|ln|\+|\-|\*|\/|\(|\)|=/] *)
Definition algebraRe : regex :=
  Cls isLower <|> Chr RADIC <|> Chr CUBERT <|> Chr PI <|> Chr INFTY
  <|> Chr 0x5E <|> Str "**" <|> Str "sin" <|> Str "cos" <|> Str "tan"
  <|> Str "log" <|> Str "ln" <|> Chr 0x2B <|> Chr 0x2D <|> Chr 0x2A
  <|> Chr SLASH <|> Chr LPAREN <|> Chr RPAREN <|> Chr 0x3D.

Definition getAnswerType (input : jsstring) : AnswerType :=
  let t := trim input in
  if test choiceRe t then Detected mc
  (* Simple numbers (integers, decimals, fractions, scientific notation) *)
  else if test fractionRe t || test numberRe t then Detected numeric
  (* Algebraic expressions (contains variables, operators, functions, radicals) *)
  else if test algebraRe (toLowerCase t) then Detected algebra
  else if (0 <? List.length t)%nat then Detected short
  else unknown.

End Classifier.

(* ================================================================= *)
(** * Vocabulary of the statements *)

Module Terms.

Import Grader GradeResponse.

(** The text a payload carries for each kind ([payload.numeric?.num ?? ''] and
    the like). *)
Definition numText (p : SubmissionPayload.t) : jsstring :=
  match SubmissionPayload.numeric p with Some n => NumericPayload.num n | None => [] end.

Definition numUnits (p : SubmissionPayload.t) : option jsstring :=
  match SubmissionPayload.numeric p with Some n => NumericPayload.units n | None => None end.

Definition algebraText (p : SubmissionPayload.t) : jsstring :=
  match SubmissionPayload.algebra p with
  | Some a => AlgebraPayload.expression a
  | None => []
  end.

(** The fields of a numeric canonical, bare or structured. *)
Definition canonText (v : OrString CanonicalNumeric.t) : jsstring :=
  match v with Bare s => s | Obj o => CanonicalNumeric.num o end.

Definition canonUnits (v : OrString CanonicalNumeric.t) : option jsstring :=
  match v with Bare _ => None | Obj o => CanonicalNumeric.units o end.

Definition canonTolerance (v : OrString CanonicalNumeric.t) : option number :=
  match v with Bare _ => None | Obj o => CanonicalNumeric.tolerance o end.

(** The same canonical with no units required. *)
Definition withoutUnits (v : OrString CanonicalNumeric.t) : OrString CanonicalNumeric.t :=
  match v with
  | Bare s => Bare s
  | Obj o => Obj {| CanonicalNumeric.num := CanonicalNumeric.num o;
                    CanonicalNumeric.units := None;
                    CanonicalNumeric.tolerance := CanonicalNumeric.tolerance o |}
  end.

(** The effective tolerance in the words of the specification: the explicit
    tolerance when set, else the larger of 0.5% of |c| and (0.01 if |c| < 1,
    else 0). *)
Definition effectiveTolerance (explicit : option number) (c : number) : number :=
  match explicit with
  | Some t => t
  | None => max (mul (abs c) (lit "0.005"))
                (if ltb (abs c) (lit "1") then lit "0.01" else lit "0")
  end.

(** The reason recorded by the tolerance comparison, and the one recorded by
    the units comparison. *)
Definition toleranceReason (explicit : option number) (within : bool) : list jsstring :=
  if within then
    [match explicit with
     | Some _ => u16 "NUM_WITHIN_CUSTOM_TOL"
     | None => u16 "NUM_WITHIN_AUTO_TOL"
     end]
  else [].

Definition unitsReason (cUnits sUnits : option jsstring) : list jsstring :=
  match cUnits with
  | Some cu =>
      if truthy cu then
        [if sameUnits sUnits cu then u16 "UNITS_OK" else u16 "UNITS_MISSING_OR_MISMATCH"]
      else []
  | None => []
  end.

(** Does grading reach the numeric comparison: both kinds numeric and both
    texts parsed. *)
Definition numericComparison (p : SubmissionPayload.t) (c : Canonical) : bool :=
  match SubmissionPayload.type p, c with
  | numeric, CNumeric v =>
      match parseNumber (numText p), parseNumber (canonText v) with
      | Some _, Some _ => true
      | _, _ => false
      end
  | _, _ => false
  end.

(** The only call [gradeWithLLM] can make for a payload and a canonical. *)
Definition oracleCall (p : SubmissionPayload.t) (v : OrString CanonicalAlgebra.t)
  : OracleCall :=
  {| submitted := trim (algebraText p);
     correct := trim (match v with
                      | Bare s => s
                      | Obj o => CanonicalAlgebra.expression o
                      end);
     synonyms := match v with
                 | Bare _ => []
                 | Obj o => map trim (orEmpty (CanonicalAlgebra.synonyms o))
                 end |}.

(** Payloads built as the grading endpoint builds them. *)
Definition numericPayload (num : string) (units : option string) : SubmissionPayload.t :=
  {| SubmissionPayload.source := typed;
     SubmissionPayload.type := numeric;
     SubmissionPayload.numeric :=
       Some {| NumericPayload.num := u16 num;
               NumericPayload.units := option_map u16 units |};
     SubmissionPayload.mc := None;
     SubmissionPayload.short := None;
     SubmissionPayload.algebra := None;
     SubmissionPayload.ocrConf := None |}.

Definition algebraPayload (expr : string) : SubmissionPayload.t :=
  {| SubmissionPayload.source := typed;
     SubmissionPayload.type := algebra;
     SubmissionPayload.numeric := None;
     SubmissionPayload.mc := None;
     SubmissionPayload.short := None;
     SubmissionPayload.algebra := Some {| AlgebraPayload.expression := u16 expr |};
     SubmissionPayload.ocrConf := None |}.

Definition canonicalNumeric (num : string) (units : option string)
    (tolerance : option string) : Canonical :=
  CNumeric (Obj {| CanonicalNumeric.num := u16 num;
                   CanonicalNumeric.units := option_map u16 units;
                   CanonicalNumeric.tolerance := option_map lit tolerance |}).

End Terms.
Import Terms.

(* ================================================================= *)
(** * The language of a pattern, and the classifier's rules in words *)

Module RegLang.

(** Patterns without anchors and lookahead denote a set of strings. *)
Fixpoint plain (r : regex) : bool :=
  match r with
  | Eps | Cls _ | Star _ => true
  | Seq a b | Alt a b => plain a && plain b
  | Grp _ a => plain a
  | NotAhead _ | Bol | Eol => false
  end.

Fixpoint Lang (r : regex) (s : jsstring) : Prop :=
  match r with
  | Eps => s = []
  | Cls c => exists x, s = [x] /\ c x = true
  | Seq a b => exists s1 s2, s = s1 ++ s2 /\ Lang a s1 /\ Lang b s2
  | Alt a b => Lang a s \/ Lang b s
  | Star c => forallb c s = true
  | Grp _ a => Lang a s
  | NotAhead _ | Bol | Eol => False
  end.

End RegLang.
Import RegLang.

Module Rules.

Import Grader.

(** A run of decimal digits, possibly empty. *)
Definition digits (s : jsstring) : Prop := forallb isDigit s = true.

(** Nothing, a plus or a minus. *)
Definition optionalSign (s : jsstring) : Prop :=
  s = [] \/ s = u16 "+" \/ s = u16 "-".

Definition substring (w s : jsstring) : Prop := exists a b, s = a ++ w ++ b.

(** No occurrence of a code unit. *)
Definition lacks (sep : code) (s : jsstring) : bool :=
  forallb (fun c : code => negb (c =? sep)%N) s.

(** Rule 1: a single letter A to D, in either case. *)
Definition isChoiceLetter (t : jsstring) : Prop :=
  exists x, t = [x] /\ In x (u16 "ABCDabcd").

(** Rule 2, first form: sign, digits, a slash, digits. *)
Definition isFractionText (t : jsstring) : Prop :=
  exists sg n d,
    t = sg ++ n ++ u16 "/" ++ d
    /\ optionalSign sg /\ digits n /\ n <> [] /\ digits d /\ d <> [].

(** The same with a denominator that is not zero. *)
Definition isNonZeroFractionText (t : jsstring) : Prop :=
  exists sg n d,
    t = sg ++ n ++ u16 "/" ++ d
    /\ optionalSign sg /\ digits n /\ n <> [] /\ digits d /\ d <> []
    /\ digitsVal d <> 0%N.

(** Rule 2, second form: an integer, a decimal or a number in scientific
    notation.  The mantissa has digits before or after an optional point;
    the exponent, if any, is a lower-case e, an optional sign and digits. *)
Definition isMantissa (s : jsstring) : Prop :=
  exists ip pt fd,
    s = ip ++ pt ++ fd
    /\ digits ip /\ (pt = [] \/ pt = u16 ".") /\ digits fd
    /\ (ip <> [] \/ fd <> []).

Definition isExponent (s : jsstring) : Prop :=
  s = [] \/
  exists sg ds, s = u16 "e" ++ sg ++ ds /\ optionalSign sg /\ digits ds /\ ds <> [].

Definition isDecimalText (t : jsstring) : Prop :=
  exists sg mant ex,
    t = sg ++ mant ++ ex /\ optionalSign sg /\ isMantissa mant /\ isExponent ex.

(** Rule 3: the marks of an algebraic expression. *)
Definition algebraUnits : list code :=
  [RADIC; CUBERT; PI; INFTY] ++ u16 "^+-*/()=".

Definition algebraWords : list jsstring :=
  map u16 ["**"; "sin"; "cos"; "tan"; "log"; "ln"]%string.

Definition hasAlgebraMark (s : jsstring) : Prop :=
  (exists x, In x s /\ (isLower x = true \/ In x algebraUnits))
  \/ (exists w, In w algebraWords /\ substring w s).

End Rules.
Import Rules.

(* ================================================================= *)
(** * Basic facts *)

Section StringFacts.

Lemma streq_refl (a : jsstring) : streq a a = true.
Proof.
  induction a as [|x a IH]; simpl; [reflexivity|].
  now rewrite N.eqb_refl, IH.
Qed.

Lemma streq_eq (a b : jsstring) : streq a b = true <-> a = b.
Proof.
  split; [|intros ->; apply streq_refl].
  revert b; induction a as [|x a IH]; intros [|y b]; simpl; try discriminate; auto.
  intros H; apply andb_prop in H as [Hx Hab].
  apply N.eqb_eq in Hx; subst y. now rewrite (IH b Hab).
Qed.

Lemma trimStart_blank (s : jsstring) :
  forallb isWhiteSpace s = true -> trimStart s = [].
Proof.
  induction s as [|c s IH]; simpl; [reflexivity|].
  intros H; apply andb_prop in H as [Hc Hs]. now rewrite Hc, IH.
Qed.

Lemma trim_blank (s : jsstring) :
  forallb isWhiteSpace s = true -> trim s = [].
Proof.
  intros H. unfold trim, trimEnd. now rewrite (trimStart_blank s H).
Qed.

End StringFacts.

Section NumberFacts.

(** Swapping the operands of a comparison reverses its outcome. *)
Lemma SFcompare_swap (a b : number) :
  SFcompare b a = option_map CompOpp (SFcompare a b).
Proof.
  destruct a as [sa|sa| |sa ma ea], b as [sb|sb| |sb mb eb]; simpl;
    try reflexivity;
    try (destruct sa; reflexivity); try (destruct sb; reflexivity);
    try (destruct sa, sb; reflexivity).
  change (Pos.compare_cont Eq mb ma) with (Pos.compare mb ma).
  change (Pos.compare_cont Eq ma mb) with (Pos.compare ma mb).
  rewrite (Z.compare_antisym ea eb), (Pos.compare_antisym ma mb).
  destruct sa, sb; simpl; try reflexivity;
    destruct (ea ?= eb)%Z; simpl; rewrite ?CompOpp_involutive; reflexivity.
Qed.

Lemma ltb_not_geb (x y : number) : ltb x y = true -> geb x y = false.
Proof.
  unfold geb, ltb, SFleb, SFltb. rewrite (SFcompare_swap x y).
  destruct (SFcompare x y) as [[]|]; simpl; try discriminate; reflexivity.
Qed.

(** A value that is at least some bound is comparable, so failing [>= hi] is
    being below [hi]. *)
Lemma not_geb_ltb (x lo hi : number) :
  isFinite hi = true ->
  geb x lo = true -> geb x hi = false -> ltb x hi = true.
Proof.
  unfold geb, ltb, SFleb, SFltb. intros Hfin.
  rewrite (SFcompare_swap x lo), (SFcompare_swap x hi).
  destruct (SFcompare x hi) as [[]|] eqn:Ehi; simpl; try discriminate; try reflexivity.
  destruct x, hi; simpl in Ehi, Hfin; try discriminate; destruct lo; simpl; discriminate.
Qed.

(** [<] is transitive. *)
Lemma ltb_trans (x y z : number) :
  ltb x y = true -> ltb y z = true -> ltb x z = true.
Proof.
  unfold ltb, SFltb.
  destruct x as [sx|sx| |sx mx ex], y as [sy|sy| |sy my ey], z as [sz|sz| |sz mz ez];
    simpl; try discriminate; try reflexivity;
    try destruct sx; try destruct sy; try destruct sz;
    simpl; try discriminate; try reflexivity.
  all: change (Pos.compare_cont Eq mx my) with (Pos.compare mx my);
       change (Pos.compare_cont Eq my mz) with (Pos.compare my mz);
       change (Pos.compare_cont Eq mx mz) with (Pos.compare mx mz).
  all: destruct (Z.compare_spec ex ey), (Z.compare_spec ey ez), (Z.compare_spec ex ez);
       try discriminate; try reflexivity; try lia.
  all: destruct (Pos.compare_spec mx my), (Pos.compare_spec my mz),
         (Pos.compare_spec mx mz);
       simpl; try discriminate; try reflexivity; try lia.
Qed.

(** The numeric constants of the source are the binary64 values that the
    kernel's own floating-point literals denote. *)
Example literals_are_binary64 :
  map lit ["0.9"; "0.7"; "0.5"; "0.005"; "0.01"; "1"]%string
    = map Prim2SF [0x1.ccccccccccccdp-1; 0x1.6666666666666p-1; 0x1p-1;
                   0x1.47ae147ae147bp-8; 0x1.47ae147ae147bp-7; 0x1p+0]%float
  /\ map lit ["9.81"; "9.8"; "10.5"; "0.05"; "0.89"; "0.69"; "1.5e-3"]%string
    = map Prim2SF [0x1.39eb851eb851fp+3; 0x1.399999999999ap+3; 0x1.5p+3;
                   0x1.999999999999ap-5; 0x1.c7ae147ae147bp-1;
                   0x1.6147ae147ae14p-1; 0x1.89374bc6a7efap-10]%float.
Proof. split; vm_compute; reflexivity. Qed.

(** The arithmetic of the model is the arithmetic of the primitive floats on
    the values of the 9.81 example. *)
Example arithmetic_is_binary64 :
  sub (lit "9.8") (lit "9.81")
    = Prim2SF (0x1.399999999999ap+3 - 0x1.39eb851eb851fp+3)%float
  /\ mul (abs (lit "9.81")) (lit "0.005")
    = Prim2SF (PrimFloat.abs 0x1.39eb851eb851fp+3 * 0x1.47ae147ae147bp-8)%float
  /\ div (lit "3") (lit "4") = Prim2SF (3 / 4)%float.
Proof. repeat split; vm_compute; reflexivity. Qed.

End NumberFacts.

(* ================================================================= *)
(** * The orchestrator and the kind check *)

Section Orchestrator.

Import Grader GradeResponse.

Variables (p : SubmissionPayload.t) (c : Canonical).

Lemma kind_eqb_eq (a b : Kind) : kind_eqb a b = true <-> a = b.
Proof. destruct a, b; simpl; split; intros H; try discriminate; reflexivity. Qed.

(** What [gradeWithLLM] is on an algebra problem with a non-empty answer: one
    call, then the thresholds or the fallback. *)
Lemma gradeWithLLM_algebra (v : OrString CanonicalAlgebra.t) :
  SubmissionPayload.type p = algebra ->
  trim (algebraText p) <> [] ->
  exists k, gradeWithLLM p (CAlgebra v) = Await (oracleCall p v) k
    /\ k Threw = gradeDeterministic p (CAlgebra v)
    /\ forall mt conf reason,
         k (Resolved mt conf reason) =
           if mt && geb conf (lit "0.9") then
             respond PASS (lit "1") [u16 "ALGEBRA_LLM_MATCH: " ++ reason]
           else if mt && geb conf (lit "0.7") then
             respond REVIEW (lit "0.5") [u16 "ALGEBRA_LLM_UNCERTAIN: " ++ reason]
           else respond FAIL (lit "0") [u16 "ALGEBRA_LLM_MISMATCH: " ++ reason].
Proof.
  intros Hty Hne. unfold gradeWithLLM. rewrite Hty.
  fold (algebraText p).
  destruct (trim (algebraText p)) as [|x t] eqn:Et; [contradiction|].
  cbn [truthy negb]. eexists. split; [|split].
  - unfold oracleCall. rewrite Et. destruct v; reflexivity.
  - reflexivity.
  - reflexivity.
Qed.

End Orchestrator.

(** The kind check of [gradeDeterministic]. *)
Lemma gradeDeterministic_mismatch (p : SubmissionPayload.t) (c : Canonical) :
  SubmissionPayload.type p <> canonicalType c ->
  Grader.gradeDeterministic p c
    = Grader.respond REVIEW (lit "0") [u16 "TYPE_MISMATCH"].
Proof.
  intros Hne. unfold Grader.gradeDeterministic.
  destruct (kind_eqb (SubmissionPayload.type p) (canonicalType c)) eqn:E.
  - apply kind_eqb_eq in E. contradiction.
  - reflexivity.
Qed.

(** C2. When the kind tag of the submission differs from the kind of the
    canonical answer, [gradeDeterministic] returns exactly
    [{REVIEW, 0, [TYPE_MISMATCH]}], whatever the payload holds, and
    [gradeWithLLM] returns that same response without calling the oracle. *)
Theorem type_mismatch_is_review (p : SubmissionPayload.t) (c : Canonical) :
  SubmissionPayload.type p <> canonicalType c ->
  Grader.gradeDeterministic p c
    = Grader.respond REVIEW (lit "0") [u16 "TYPE_MISMATCH"]
  /\ Grader.gradeWithLLM p c
    = Grader.Return (Grader.respond REVIEW (lit "0") [u16 "TYPE_MISMATCH"]).
Proof.
  intros Hne.
  pose proof (gradeDeterministic_mismatch p c Hne) as Hd.
  split; [exact Hd|].
  unfold Grader.gradeWithLLM.
  destruct (SubmissionPayload.type p) eqn:Ety, c; simpl in Hne;
    try contradiction; try (now rewrite <- Hd); congruence.
Qed.

Lemma type_mismatch_is_review_witness :
  Grader.gradeDeterministic (numericPayload "42" None) (CMc (u16 "B"))
    = Grader.respond REVIEW (lit "0") [u16 "TYPE_MISMATCH"]
  /\ Grader.gradeWithLLM (numericPayload "42" None) (CMc (u16 "B"))
    = Grader.Return (Grader.respond REVIEW (lit "0") [u16 "TYPE_MISMATCH"]).
Proof.
  apply (type_mismatch_is_review (numericPayload "42" None) (CMc (u16 "B"))).
  simpl. discriminate.
Defined.

(** C8. On an algebra problem, a submitted expression that is empty after
    trimming makes [gradeWithLLM] return exactly
    [{FAIL, 0, [EMPTY_SUBMISSION]}]; the computation is a plain return, so the
    equivalence oracle is not called. *)
Theorem empty_submission_fails_without_oracle
    (p : SubmissionPayload.t) (v : OrString CanonicalAlgebra.t) :
  SubmissionPayload.type p = algebra ->
  trim (algebraText p) = [] ->
  Grader.gradeWithLLM p (CAlgebra v)
    = Grader.Return (Grader.respond FAIL (lit "0") [u16 "EMPTY_SUBMISSION"])
  /\ Grader.calls (Grader.gradeWithLLM p (CAlgebra v)) = []
  /\ forall oracle,
       Grader.run oracle (Grader.gradeWithLLM p (CAlgebra v))
         = Grader.respond FAIL (lit "0") [u16 "EMPTY_SUBMISSION"].
Proof.
  intros Hty Hempty.
  assert (H : Grader.gradeWithLLM p (CAlgebra v)
              = Grader.Return (Grader.respond FAIL (lit "0") [u16 "EMPTY_SUBMISSION"])).
  { unfold Grader.gradeWithLLM. rewrite Hty. fold (algebraText p).
    rewrite Hempty. reflexivity. }
  rewrite H. repeat split.
Qed.

Lemma empty_submission_fails_without_oracle_witness :
  Grader.gradeWithLLM (algebraPayload "   ") (CAlgebra (Bare (u16 "x^2")))
    = Grader.Return (Grader.respond FAIL (lit "0") [u16 "EMPTY_SUBMISSION"])
  /\ Grader.calls (Grader.gradeWithLLM (algebraPayload "   ") (CAlgebra (Bare (u16 "x^2")))) = []
  /\ forall oracle,
       Grader.run oracle (Grader.gradeWithLLM (algebraPayload "   ") (CAlgebra (Bare (u16 "x^2"))))
         = Grader.respond FAIL (lit "0") [u16 "EMPTY_SUBMISSION"].
Proof.
  apply (empty_submission_fails_without_oracle
           (algebraPayload "   ") (Bare (u16 "x^2"))); reflexivity.
Defined.

(** C5. On an algebra problem with a non-empty trimmed answer, when the call
    to the oracle raises an error, [gradeWithLLM] returns the very response
    of [gradeDeterministic] on the same submission and canonical. *)
Theorem oracle_failure_falls_back
    (p : SubmissionPayload.t) (v : OrString CanonicalAlgebra.t)
    (oracle : Grader.OracleCall -> Grader.OracleOutcome) :
  SubmissionPayload.type p = algebra ->
  trim (algebraText p) <> [] ->
  oracle (oracleCall p v) = Grader.Threw ->
  Grader.calls (Grader.gradeWithLLM p (CAlgebra v)) = [oracleCall p v]
  /\ Grader.run oracle (Grader.gradeWithLLM p (CAlgebra v))
     = Grader.gradeDeterministic p (CAlgebra v).
Proof.
  intros Hty Hne Hthrow.
  destruct (gradeWithLLM_algebra p v Hty Hne) as (k & Hk & Hfall & _).
  rewrite Hk. simpl. rewrite Hthrow. split; [reflexivity | exact Hfall].
Qed.

Lemma oracle_failure_falls_back_witness :
  Grader.calls (Grader.gradeWithLLM (algebraPayload "2x") (CAlgebra (Bare (u16 "2*x"))))
    = [oracleCall (algebraPayload "2x") (Bare (u16 "2*x"))]
  /\ Grader.run (fun _ => Grader.Threw)
       (Grader.gradeWithLLM (algebraPayload "2x") (CAlgebra (Bare (u16 "2*x"))))
     = Grader.gradeDeterministic (algebraPayload "2x") (CAlgebra (Bare (u16 "2*x"))).
Proof.
  apply (oracle_failure_falls_back (algebraPayload "2x") (Bare (u16 "2*x"))
           (fun _ => Grader.Threw)).
  - reflexivity.
  - vm_compute. discriminate.
  - reflexivity.
Defined.

(** C1. On an algebra problem with a non-empty trimmed answer, when the oracle
    returns [{match, confidence}]: PASS with score 1 if match and
    confidence >= 0.9; REVIEW with score 0.5 if match and
    0.7 <= confidence < 0.9; FAIL with score 0 otherwise, in particular
    without a match or with a confidence below 0.7.  With a match, confidence
    0.9 is PASS, 0.89 is REVIEW and 0.69 is FAIL. *)
Theorem oracle_thresholds
    (p : SubmissionPayload.t) (v : OrString CanonicalAlgebra.t)
    (oracle : Grader.OracleCall -> Grader.OracleOutcome)
    (mt : bool) (conf : number) (reason : jsstring) :
  SubmissionPayload.type p = algebra ->
  trim (algebraText p) <> [] ->
  oracle (oracleCall p v) = Grader.Resolved mt conf reason ->
  let g := Grader.run oracle (Grader.gradeWithLLM p (CAlgebra v)) in
  let passing := mt && geb conf (lit "0.9") in
  let uncertain := mt && geb conf (lit "0.7") && ltb conf (lit "0.9") in
  (passing = true ->
     GradeResponse.result g = PASS /\ GradeResponse.score g = lit "1")
  /\ (uncertain = true ->
     GradeResponse.result g = REVIEW /\ GradeResponse.score g = lit "0.5")
  /\ (passing = false -> uncertain = false ->
     GradeResponse.result g = FAIL /\ GradeResponse.score g = lit "0")
  /\ (mt = false \/ ltb conf (lit "0.7") = true ->
     GradeResponse.result g = FAIL /\ GradeResponse.score g = lit "0")
  /\ (mt = true -> conf = lit "0.9" -> GradeResponse.result g = PASS)
  /\ (mt = true -> conf = lit "0.89" -> GradeResponse.result g = REVIEW)
  /\ (mt = true -> conf = lit "0.69" -> GradeResponse.result g = FAIL).
Proof.
  intros Hty Hne Hret.
  destruct (gradeWithLLM_algebra p v Hty Hne) as (k & Hk & _ & Hres).
  rewrite Hk. cbn [Grader.run]. rewrite Hret, Hres. cbv zeta.
  assert (Hfin : isFinite (lit "0.9") = true) by (vm_compute; reflexivity).
  assert (H79 : ltb (lit "0.7") (lit "0.9") = true) by (vm_compute; reflexivity).
  assert (Hfail : forall b, mt && geb conf (lit "0.9") = false ->
                   mt && geb conf (lit "0.7") && b = false ->
                   (b = false -> mt && geb conf (lit "0.7") = true -> False) ->
                   mt && geb conf (lit "0.7") = false).
  { intros b _ H2 H3. destruct (mt && geb conf (lit "0.7")) eqn:E; [|reflexivity].
    destruct b; [discriminate|]. exfalso. now apply H3. }
  split; [|split; [|split; [|split; [|split; [|split]]]]].
  - intros H. now rewrite H.
  - intros H. apply andb_prop in H as [H Hlt]. apply andb_prop in H as [Hm Hge].
    rewrite Hm, Hge, (ltb_not_geb _ _ Hlt). split; reflexivity.
  - intros H1 H2. rewrite H1.
    rewrite (Hfail _ H1 H2); [split; reflexivity|].
    intros Hlt H7. apply andb_prop in H7 as [Hm H7]. rewrite Hm in H1.
    cbn [andb] in H1. rewrite (not_geb_ltb conf (lit "0.7") (lit "0.9") Hfin H7 H1) in Hlt.
    discriminate.
  - intros [-> | Hlt]; [split; reflexivity|].
    rewrite (ltb_not_geb _ _ Hlt), (ltb_not_geb _ _ (ltb_trans _ _ _ Hlt H79)).
    rewrite !andb_false_r. split; reflexivity.
  - intros -> ->. vm_compute. reflexivity.
  - intros -> ->. vm_compute. reflexivity.
  - intros -> ->. vm_compute. reflexivity.
Qed.

Lemma oracle_thresholds_witness :
  let g := Grader.run (fun _ => Grader.Resolved true (lit "0.9") (u16 "Exact match"))
             (Grader.gradeWithLLM (algebraPayload "2x") (CAlgebra (Bare (u16 "2x")))) in
  trim (algebraText (algebraPayload "2x")) <> []
  /\ GradeResponse.result g = PASS /\ GradeResponse.score g = lit "1".
Proof.
  cbv zeta.
  assert (Hne : trim (algebraText (algebraPayload "2x")) <> [])
    by (vm_compute; discriminate).
  split; [exact Hne|].
  refine (proj1 (oracle_thresholds (algebraPayload "2x") (Bare (u16 "2x"))
                   (fun _ => Grader.Resolved true (lit "0.9") (u16 "Exact match"))
                   true (lit "0.9") (u16 "Exact match") eq_refl Hne eq_refl) _).
  vm_compute. reflexivity.
Defined.

(* ================================================================= *)
(** * The numeric comparison *)

Section NumericBranch.

Import Grader GradeResponse.

(** The numeric branch, once both texts are parsed. *)
Lemma gradeDeterministic_numeric p v s cn :
  SubmissionPayload.type p = numeric ->
  parseNumber (numText p) = Some s ->
  parseNumber (canonText v) = Some cn ->
  gradeDeterministic p (CNumeric v) =
    let within := leb (abs (sub s cn)) (effectiveTolerance (canonTolerance v) cn) in
    respond (if within then PASS else FAIL)
            (if within then lit "1" else lit "0")
            (toleranceReason (canonTolerance v) within
             ++ unitsReason (canonUnits v) (numUnits p)).
Proof.
  intros Hty Hs Hc. unfold gradeDeterministic. rewrite Hty. cbn [canonicalType kind_eqb negb].
  fold (numText p) (numUnits p) (canonText v) (canonUnits v) (canonTolerance v).
  rewrite Hs, Hc.
  fold (effectiveTolerance (canonTolerance v) cn). cbv zeta.
  set (within := leb _ _).
  unfold toleranceReason, unitsReason.
  destruct (canonUnits v) as [cu|]; [destruct (truthy cu)|];
    [destruct (sameUnits (numUnits p) cu)| |];
    destruct within; rewrite ?app_nil_r; reflexivity.
Qed.

(** The numeric branch when a text does not parse. *)
Lemma gradeDeterministic_parse_fail p v :
  SubmissionPayload.type p = numeric ->
  parseNumber (numText p) = None \/ parseNumber (canonText v) = None ->
  gradeDeterministic p (CNumeric v) = respond REVIEW (lit "0") [u16 "NUM_PARSE_FAIL"].
Proof.
  intros Hty H. unfold gradeDeterministic. rewrite Hty. cbn [canonicalType kind_eqb negb].
  fold (numText p) (canonText v).
  destruct H as [H | H]; rewrite H; [|destruct (parseNumber (numText p))]; reflexivity.
Qed.

Lemma canonText_withoutUnits v : canonText (withoutUnits v) = canonText v.
Proof. destruct v; reflexivity. Qed.

Lemma canonTolerance_withoutUnits v : canonTolerance (withoutUnits v) = canonTolerance v.
Proof. destruct v; reflexivity. Qed.

Lemma canonUnits_withoutUnits v : canonUnits (withoutUnits v) = None.
Proof. destruct v; reflexivity. Qed.

Lemma sameUnits_spec (sUnits : option jsstring) (cu : jsstring) :
  cu <> [] -> (sameUnits sUnits cu = true <-> sUnits = Some cu).
Proof.
  intros Hcu. unfold sameUnits. destruct sUnits as [u|]; [|split; discriminate].
  split.
  - intros H. apply andb_prop in H as [_ H]. apply streq_eq in H. now subst.
  - intros [= ->]. rewrite streq_refl. destruct cu; [contradiction|reflexivity].
Qed.

(** An empty or blank text parses as the number zero. *)
Lemma parseNumber_blank (s : jsstring) :
  forallb isWhiteSpace s = true -> parseNumber s = Some zero.
Proof.
  intros H. unfold parseNumber. rewrite (trim_blank s H). reflexivity.
Qed.

End NumericBranch.

(** C3. On a numeric problem whose two texts parse, the effective tolerance is
    the explicit tolerance of the canonical when set, else
    max(0.005 * |c|, 0.01 if |c| < 1 else 0); the verdict is PASS with score 1
    exactly when |s - c| <= tolerance, and FAIL with score 0 otherwise.
    Canonical 9.81 with submission 9.8 is PASS under the automatic
    tolerance; canonical 9.81 with tolerance 0.05 and submission 10.5 is
    FAIL. *)
Theorem numeric_tolerance_verdict
    (p : SubmissionPayload.t) (v : OrString CanonicalNumeric.t) (s cn : number) :
  SubmissionPayload.type p = numeric ->
  Grader.parseNumber (numText p) = Some s ->
  Grader.parseNumber (canonText v) = Some cn ->
  let tol := effectiveTolerance (canonTolerance v) cn in
  let g := Grader.gradeDeterministic p (CNumeric v) in
  (leb (abs (sub s cn)) tol = true <-> GradeResponse.result g = PASS)
  /\ (leb (abs (sub s cn)) tol = false <-> GradeResponse.result g = FAIL)
  /\ (GradeResponse.result g = PASS -> GradeResponse.score g = lit "1")
  /\ (GradeResponse.result g = FAIL -> GradeResponse.score g = lit "0")
  /\ GradeResponse.result
       (Grader.gradeDeterministic (numericPayload "9.8" None)
          (canonicalNumeric "9.81" None None)) = PASS
  /\ GradeResponse.result
       (Grader.gradeDeterministic (numericPayload "10.5" None)
          (canonicalNumeric "9.81" None (Some "0.05"%string))) = FAIL.
Proof.
  intros Hty Hs Hc. cbv zeta.
  rewrite (gradeDeterministic_numeric p v s cn Hty Hs Hc). cbv zeta.
  destruct (leb (abs (sub s cn)) (effectiveTolerance (canonTolerance v) cn));
    cbn [GradeResponse.result GradeResponse.score Grader.respond];
    repeat split; intros; try discriminate; try reflexivity.
Qed.

Lemma numeric_tolerance_verdict_witness :
  let p := numericPayload "9.8" None in
  let v := Obj {| CanonicalNumeric.num := u16 "9.81";
                  CanonicalNumeric.units := None;
                  CanonicalNumeric.tolerance := None |} in
  let g := Grader.gradeDeterministic p (CNumeric v) in
  leb (abs (sub (lit "9.8") (lit "9.81")))
      (effectiveTolerance None (lit "9.81")) = true
  /\ GradeResponse.result g = PASS /\ GradeResponse.score g = lit "1".
Proof.
  cbv zeta.
  pose proof (numeric_tolerance_verdict (numericPayload "9.8" None)
                (Obj {| CanonicalNumeric.num := u16 "9.81";
                        CanonicalNumeric.units := None;
                        CanonicalNumeric.tolerance := None |})
                (lit "9.8") (lit "9.81")) as H.
  cbv zeta in H.
  destruct H as (Hpass & _ & Hscore & _).
  - reflexivity.
  - vm_compute. reflexivity.
  - vm_compute. reflexivity.
  - assert (Hle : leb (abs (sub (lit "9.8") (lit "9.81")))
                      (effectiveTolerance None (lit "9.81")) = true)
      by (vm_compute; reflexivity).
    split; [exact Hle|].
    split; [apply Hpass; exact Hle | apply Hscore, Hpass; exact Hle].
Defined.

(** C9. Units never decide a numeric verdict: two numeric submissions with
    the same answer text (they may differ in units) get the same result and
    score against any canonical.  When the canonical requires units and the
    comparison is reached, the result is the one obtained without the
    requirement, and the reasons are those obtained without it followed by
    UNITS_OK (the submitted units equal the canonical ones) or by
    UNITS_MISSING_OR_MISMATCH. *)
Theorem units_never_change_the_verdict
    (p1 p2 : SubmissionPayload.t) (c : Canonical) :
  SubmissionPayload.type p1 = numeric ->
  SubmissionPayload.type p2 = numeric ->
  numText p1 = numText p2 ->
  let g1 := Grader.gradeDeterministic p1 c in
  let g2 := Grader.gradeDeterministic p2 c in
  GradeResponse.result g1 = GradeResponse.result g2
  /\ GradeResponse.score g1 = GradeResponse.score g2
  /\ forall v s cn cu,
       c = CNumeric v ->
       Grader.parseNumber (numText p1) = Some s ->
       Grader.parseNumber (canonText v) = Some cn ->
       canonUnits v = Some cu -> cu <> [] ->
       let g0 := Grader.gradeDeterministic p1 (CNumeric (withoutUnits v)) in
       GradeResponse.result g1 = GradeResponse.result g0
       /\ GradeResponse.score g1 = GradeResponse.score g0
       /\ (numUnits p1 = Some cu ->
           GradeResponse.reasons g1 = GradeResponse.reasons g0 ++ [u16 "UNITS_OK"])
       /\ (numUnits p1 <> Some cu ->
           GradeResponse.reasons g1
             = GradeResponse.reasons g0 ++ [u16 "UNITS_MISSING_OR_MISMATCH"]).
Proof.
  intros H1 H2 Htxt. cbv zeta.
  assert (Hsame : GradeResponse.result (Grader.gradeDeterministic p1 c)
                    = GradeResponse.result (Grader.gradeDeterministic p2 c)
                  /\ GradeResponse.score (Grader.gradeDeterministic p1 c)
                    = GradeResponse.score (Grader.gradeDeterministic p2 c)).
  { destruct c as [v|x|x|x].
    - destruct (Grader.parseNumber (numText p1)) as [s|] eqn:Es.
      + destruct (Grader.parseNumber (canonText v)) as [cn|] eqn:Ec.
        * rewrite (gradeDeterministic_numeric p1 v s cn H1 Es Ec).
          rewrite Htxt in Es.
          rewrite (gradeDeterministic_numeric p2 v s cn H2 Es Ec).
          split; reflexivity.
        * rewrite !gradeDeterministic_parse_fail by auto. split; reflexivity.
      + rewrite (gradeDeterministic_parse_fail p1 v H1) by auto.
        rewrite Htxt in Es.
        rewrite (gradeDeterministic_parse_fail p2 v H2) by auto.
        split; reflexivity.
    - rewrite (gradeDeterministic_mismatch p1 (CMc x)),
        (gradeDeterministic_mismatch p2 (CMc x));
        simpl; try congruence; split; reflexivity.
    - rewrite (gradeDeterministic_mismatch p1 (CShort x)),
        (gradeDeterministic_mismatch p2 (CShort x));
        simpl; try congruence; split; reflexivity.
    - rewrite (gradeDeterministic_mismatch p1 (CAlgebra x)),
        (gradeDeterministic_mismatch p2 (CAlgebra x));
        simpl; try congruence; split; reflexivity. }
  destruct Hsame as [Hr Hs]. split; [exact Hr|]. split; [exact Hs|].
  intros v s cn cu -> Es Ec Hu Hcu.
  rewrite (gradeDeterministic_numeric p1 v s cn H1 Es Ec).
  rewrite (gradeDeterministic_numeric p1 (withoutUnits v) s cn H1 Es)
    by (rewrite canonText_withoutUnits; exact Ec).
  rewrite canonTolerance_withoutUnits, canonUnits_withoutUnits, Hu.
  cbv zeta. cbn [GradeResponse.result GradeResponse.score GradeResponse.reasons Grader.respond].
  unfold unitsReason at 2 3. rewrite !app_nil_r.
  unfold unitsReason.
  replace (truthy cu) with true by (destruct cu; [contradiction|reflexivity]).
  repeat split.
  - intros Hm. apply (sameUnits_spec _ cu Hcu) in Hm. now rewrite Hm.
  - intros Hm. destruct (Grader.sameUnits (numUnits p1) cu) eqn:E; [|reflexivity].
    apply (sameUnits_spec _ cu Hcu) in E. contradiction.
Qed.

Lemma units_never_change_the_verdict_witness :
  let p1 := numericPayload "9.8" (Some "m"%string) in
  let p2 := numericPayload "9.8" (Some "kg"%string) in
  let c := canonicalNumeric "9.81" (Some "m"%string) None in
  GradeResponse.result (Grader.gradeDeterministic p1 c)
    = GradeResponse.result (Grader.gradeDeterministic p2 c)
  /\ GradeResponse.score (Grader.gradeDeterministic p1 c)
    = GradeResponse.score (Grader.gradeDeterministic p2 c)
  /\ GradeResponse.reasons (Grader.gradeDeterministic p1 c)
    = [u16 "NUM_WITHIN_AUTO_TOL"; u16 "UNITS_OK"].
Proof.
  cbv zeta.
  destruct (units_never_change_the_verdict
              (numericPayload "9.8" (Some "m"%string))
              (numericPayload "9.8" (Some "kg"%string))
              (canonicalNumeric "9.81" (Some "m"%string) None)
              eq_refl eq_refl eq_refl) as (Hr & Hs & Hu).
  split; [exact Hr|]. split; [exact Hs|].
  destruct (Hu _ (lit "9.8") (lit "9.81") (u16 "m") eq_refl) as (_ & _ & Hok & _).
  - vm_compute. reflexivity.
  - vm_compute. reflexivity.
  - reflexivity.
  - vm_compute. discriminate.
  - rewrite Hok by reflexivity. vm_compute. reflexivity.
Defined.

(** C10. [parseNumber] of an empty or blank string is the number 0, not the
    failure value.  So a numeric submission with a blank answer, graded
    against a canonical that parses, is graded as the value 0: never REVIEW
    nor NUM_PARSE_FAIL, PASS exactly when |0 - c| <= the effective tolerance
    and FAIL otherwise; against the canonical value 0 it is PASS. *)
Theorem blank_numeric_answer_is_graded_as_zero
    (s : jsstring) (p : SubmissionPayload.t)
    (v : OrString CanonicalNumeric.t) (cn : number) :
  forallb isWhiteSpace s = true ->
  Grader.parseNumber s = Some zero
  /\ (SubmissionPayload.type p = numeric ->
      numText p = s ->
      Grader.parseNumber (canonText v) = Some cn ->
      let tol := effectiveTolerance (canonTolerance v) cn in
      let g := Grader.gradeDeterministic p (CNumeric v) in
      GradeResponse.result g <> REVIEW
      /\ ~ In (u16 "NUM_PARSE_FAIL") (GradeResponse.reasons g)
      /\ (GradeResponse.result g = PASS <-> leb (abs (sub zero cn)) tol = true)
      /\ (GradeResponse.result g = FAIL <-> leb (abs (sub zero cn)) tol = false))
  /\ GradeResponse.result
       (Grader.gradeDeterministic (numericPayload "" None)
          (canonicalNumeric "0" None None)) = PASS.
Proof.
  intros Hblank.
  pose proof (parseNumber_blank s Hblank) as Hz.
  split; [exact Hz|]. split; [|vm_compute; reflexivity].
  intros Hty Htxt Hc. cbv zeta. rewrite <- Htxt in Hz.
  rewrite (gradeDeterministic_numeric p v zero cn Hty Hz Hc). cbv zeta.
  cbn [GradeResponse.result GradeResponse.reasons Grader.respond].
  split; [|split; [|split]].
  - destruct (leb _ _); discriminate.
  - intros Hin. apply in_app_or in Hin as [Hin | Hin].
    + unfold toleranceReason in Hin.
      destruct (leb _ _); [|exact Hin].
      destruct (canonTolerance v); destruct Hin as [Hin | []];
        vm_compute in Hin; discriminate.
    + unfold unitsReason in Hin.
      destruct (canonUnits v) as [cu|]; [|exact Hin].
      destruct (truthy cu); [|exact Hin].
      destruct (Grader.sameUnits (numUnits p) cu); destruct Hin as [Hin | []];
        vm_compute in Hin; discriminate.
  - destruct (leb _ _); split; intros; try discriminate; reflexivity.
  - destruct (leb _ _); split; intros; try discriminate; reflexivity.
Qed.

Lemma blank_numeric_answer_is_graded_as_zero_witness :
  Grader.parseNumber (u16 "  ") = Some zero
  /\ GradeResponse.result
       (Grader.gradeDeterministic (numericPayload "  " None)
          (canonicalNumeric "5" None None)) = FAIL.
Proof.
  destruct (blank_numeric_answer_is_graded_as_zero
              (u16 "  ") (numericPayload "  " None)
              (Obj {| CanonicalNumeric.num := u16 "5";
                      CanonicalNumeric.units := None;
                      CanonicalNumeric.tolerance := None |})
              (lit "5") eq_refl) as (Hz & Hg & _).
  split; [exact Hz|].
  destruct (Hg eq_refl eq_refl) as (_ & _ & _ & Hfail).
  - vm_compute. reflexivity.
  - apply Hfail. vm_compute. reflexivity.
Defined.

(* ================================================================= *)
(** * Reasons and scores *)

(** C6, the claim as stated fails: a numeric answer outside the tolerance,
    with no units required, is FAIL with no reason code at all, and a
    numeric answer within the tolerance with matching units carries two. *)
Lemma one_reason_per_branch_counterexample :
  Grader.gradeDeterministic (numericPayload "2" None) (CNumeric (Bare (u16 "1")))
    = Grader.respond FAIL (lit "0") []
  /\ Grader.gradeDeterministic (numericPayload "9.8" (Some "m"%string))
       (canonicalNumeric "9.81" (Some "m"%string) None)
    = Grader.respond PASS (lit "1") [u16 "NUM_WITHIN_AUTO_TOL"; u16 "UNITS_OK"].
Proof. split; vm_compute; reflexivity. Qed.

(** C6, amended.  The score is 1 for PASS and 0 for FAIL and for REVIEW.
    Every branch but the numeric comparison returns exactly one reason code;
    the numeric comparison returns one tolerance code when the answer is
    within the tolerance (none otherwise), followed by one units code when
    the canonical requires units (none otherwise). *)
Theorem reasons_and_scores (p : SubmissionPayload.t) (c : Canonical) :
  let g := Grader.gradeDeterministic p c in
  (GradeResponse.result g = PASS -> GradeResponse.score g = lit "1")
  /\ (GradeResponse.result g = FAIL -> GradeResponse.score g = lit "0")
  /\ (GradeResponse.result g = REVIEW -> GradeResponse.score g = lit "0")
  /\ (numericComparison p c = false -> List.length (GradeResponse.reasons g) = 1)
  /\ (forall v s cn,
        SubmissionPayload.type p = numeric -> c = CNumeric v ->
        Grader.parseNumber (numText p) = Some s ->
        Grader.parseNumber (canonText v) = Some cn ->
        let within := leb (abs (sub s cn)) (effectiveTolerance (canonTolerance v) cn) in
        let required := match canonUnits v with Some cu => truthy cu | None => false end in
        GradeResponse.reasons g
          = toleranceReason (canonTolerance v) within
            ++ unitsReason (canonUnits v) (numUnits p)
        /\ List.length (GradeResponse.reasons g)
          = (if within then 1 else 0) + (if required then 1 else 0)).
Proof.
  cbv zeta.
  assert (Hnum : forall v s cn,
        SubmissionPayload.type p = numeric -> c = CNumeric v ->
        Grader.parseNumber (numText p) = Some s ->
        Grader.parseNumber (canonText v) = Some cn ->
        Grader.gradeDeterministic p c =
          let within := leb (abs (sub s cn)) (effectiveTolerance (canonTolerance v) cn) in
          Grader.respond (if within then PASS else FAIL)
            (if within then lit "1" else lit "0")
            (toleranceReason (canonTolerance v) within
             ++ unitsReason (canonUnits v) (numUnits p))).
  { intros v s cn Hty -> Hs Hc. exact (gradeDeterministic_numeric p v s cn Hty Hs Hc). }
  assert (Hother : numericComparison p c = false ->
            exists r (pass : bool) (code : jsstring),
              Grader.gradeDeterministic p c = Grader.respond r (lit "0") [code] /\ r <> PASS
              \/ Grader.gradeDeterministic p c = Grader.respond PASS (lit "1") [code]).
  { intros Hnc.
    destruct (kind_eqb (SubmissionPayload.type p) (canonicalType c)) eqn:Ek.
    - apply kind_eqb_eq in Ek. unfold numericComparison in Hnc.
      unfold Grader.gradeDeterministic. rewrite Ek in *. rewrite (proj2 (kind_eqb_eq _ _) eq_refl).
      cbn [negb]. destruct c as [v|x|x|x]; cbn [canonicalType] in *.
      + fold (numText p) (canonText v).
        destruct (Grader.parseNumber (numText p)) as [s|];
          [destruct (Grader.parseNumber (canonText v)) as [cn|]; [discriminate|]|];
          exists REVIEW, false, (u16 "NUM_PARSE_FAIL"); left; (split; [reflexivity|discriminate]).
      + match goal with |- context [if ?b then PASS else FAIL] => destruct b end;
          [exists PASS, true, (u16 "MC_MATCH"); right; reflexivity
          |exists FAIL, false, (u16 "MC_MISMATCH"); left; (split; [reflexivity|discriminate])].
      + match goal with |- context [if ?b then PASS else FAIL] => destruct b end;
          [exists PASS, true, (u16 "SHORT_MATCH"); right; reflexivity
          |exists FAIL, false, (u16 "SHORT_MISMATCH"); left; (split; [reflexivity|discriminate])].
      + match goal with |- context [if ?b then PASS else FAIL] => destruct b end;
          [exists PASS, true, (u16 "ALGEBRA_MATCH"); right; reflexivity
          |exists FAIL, false, (u16 "ALGEBRA_MISMATCH"); left; (split; [reflexivity|discriminate])].
    - exists REVIEW, false, (u16 "TYPE_MISMATCH"). left. split; [|discriminate].
      apply gradeDeterministic_mismatch. intros E. rewrite E in Ek.
      rewrite (proj2 (kind_eqb_eq _ _) eq_refl) in Ek. discriminate. }
  assert (Hscore : (GradeResponse.result (Grader.gradeDeterministic p c) = PASS ->
                    GradeResponse.score (Grader.gradeDeterministic p c) = lit "1")
                /\ (GradeResponse.result (Grader.gradeDeterministic p c) <> PASS ->
                    GradeResponse.score (Grader.gradeDeterministic p c) = lit "0")).
  { destruct (numericComparison p c) eqn:Enc.
    - unfold numericComparison in Enc.
      destruct (SubmissionPayload.type p) eqn:Ety; try discriminate.
      destruct c as [v|x|x|x]; try discriminate.
      destruct (Grader.parseNumber (numText p)) as [s|] eqn:Es; [|discriminate].
      destruct (Grader.parseNumber (canonText v)) as [cn|] eqn:Ec; [|discriminate].
      rewrite (gradeDeterministic_numeric p v s cn Ety Es Ec). cbv zeta.
      destruct (leb _ _); cbn; split; intros; try reflexivity; try discriminate; congruence.
    - destruct (Hother eq_refl) as (r & pass & code & [[-> Hr] | ->]); cbn;
        split; intros; try reflexivity; congruence. }
  destruct Hscore as [Hp Hn].
  split; [exact Hp|]. split; [intros H; apply Hn; congruence|].
  split; [intros H; apply Hn; congruence|]. split.
  - intros Hnc. destruct (Hother Hnc) as (r & pass & code & [[-> _] | ->]); reflexivity.
  - intros v s cn Hty Hc Hs Hcn. rewrite (Hnum v s cn Hty Hc Hs Hcn). cbv zeta.
    cbn [GradeResponse.reasons Grader.respond]. split; [reflexivity|].
    rewrite length_app. unfold toleranceReason, unitsReason.
    destruct (leb _ _), (canonUnits v) as [cu|]; try destruct (truthy cu); reflexivity.
Qed.

(* ================================================================= *)
(** * The expression normalizer *)

(** C7, evaluated at the input abc.  The rule that multiplies adjacent
    letters splits the last two letters of every run of letters, whatever its
    length: abc becomes ab*c, and ab*c becomes a*b*c.  A second
    normalization therefore changes the result, and a function name is not
    left alone either: sqrt(x) becomes sqr*t(x). *)
Theorem normalize_not_idempotent_on_letter_runs :
  Grader.normalizeAlgebraExpression (u16 "abc") = u16 "ab*c"
  /\ Grader.normalizeAlgebraExpression
       (Grader.normalizeAlgebraExpression (u16 "abc")) = u16 "a*b*c"
  /\ Grader.normalizeAlgebraExpression
       (Grader.normalizeAlgebraExpression (u16 "abc"))
     <> Grader.normalizeAlgebraExpression (u16 "abc")
  /\ Grader.normalizeAlgebraExpression (u16 "xy") = u16 "x*y"
  /\ Grader.normalizeAlgebraExpression (u16 "sqrt(x)") = u16 "sqr*t(x)".
Proof.
  repeat split; try (vm_compute; reflexivity).
  vm_compute. discriminate.
Qed.

(* ================================================================= *)
(** * The matcher decides the language of a plain pattern *)

Section MatcherCorrect.

Lemma starK_sound {R} (c : code -> bool) (k : K R) :
  forall rest seen cs x,
    starK c k seen rest cs = Some x ->
    exists s1 s2, rest = s1 ++ s2 /\ forallb c s1 = true
                  /\ k (rev s1 ++ seen) s2 cs = Some x.
Proof.
  induction rest as [|y rest IH]; intros seen cs x H; simpl in H.
  - exists [], []. auto.
  - destruct (c y) eqn:Ecy.
    + destruct (starK c k (y :: seen) rest cs) as [r|] eqn:E.
      * injection H as ->. destruct (IH _ _ _ E) as (s1 & s2 & -> & Hall & Hk).
        exists (y :: s1), s2. simpl. rewrite Ecy, Hall, <- app_assoc. auto.
      * exists [], (y :: rest). auto.
    + exists [], (y :: rest). auto.
Qed.

Lemma starK_complete {R} (c : code -> bool) (k : K R) :
  forall s1 s2 seen cs,
    forallb c s1 = true ->
    k (rev s1 ++ seen) s2 cs <> None ->
    starK c k seen (s1 ++ s2) cs <> None.
Proof.
  induction s1 as [|y s1 IH]; intros s2 seen cs Hall Hk; simpl in *.
  - destruct s2 as [|z s2]; simpl; [exact Hk|].
    destruct (c z); [|exact Hk].
    destruct (starK c k (z :: seen) s2 cs); [discriminate | exact Hk].
  - apply andb_prop in Hall as [Hy Hall]. rewrite Hy.
    rewrite <- app_assoc in Hk. specialize (IH s2 (y :: seen) cs Hall Hk).
    destruct (starK c k (y :: seen) (s1 ++ s2) cs); [discriminate | contradiction].
Qed.

Lemma m_sound (r : regex) :
  plain r = true ->
  forall R (k : K R) seen rest cs x,
    m r k seen rest cs = Some x ->
    exists s1 s2 cs', rest = s1 ++ s2 /\ Lang r s1
                      /\ k (rev s1 ++ seen) s2 cs' = Some x.
Proof.
  induction r as [|c|r1 IH1 r2 IH2|r1 IH1 r2 IH2|c|i r1 IH1|r1 IH1| |];
    intros Hp R k seen rest cs x H; simpl in Hp, H; try discriminate.
  - exists [], rest, cs. simpl. auto.
  - destruct rest as [|y rest]; [discriminate|].
    destruct (c y) eqn:Ecy; [|discriminate].
    exists [y], rest, cs. simpl. split; [reflexivity|]. split; [|exact H].
    exists y. auto.
  - apply andb_prop in Hp as [Hp1 Hp2].
    destruct (IH1 Hp1 _ _ _ _ _ _ H) as (s1 & s2 & cs1 & -> & HL1 & H1).
    destruct (IH2 Hp2 _ _ _ _ _ _ H1) as (s3 & s4 & cs2 & -> & HL2 & H2).
    exists (s1 ++ s3), s4, cs2. rewrite <- app_assoc. split; [reflexivity|].
    split; [exists s1, s3; auto|]. now rewrite rev_app_distr, <- app_assoc.
  - apply andb_prop in Hp as [Hp1 Hp2].
    destruct (m r1 k seen rest cs) as [y|] eqn:E.
    + injection H as ->. destruct (IH1 Hp1 _ _ _ _ _ _ E) as (s1 & s2 & cs1 & ? & ? & ?).
      exists s1, s2, cs1. simpl. auto.
    + destruct (IH2 Hp2 _ _ _ _ _ _ H) as (s1 & s2 & cs1 & ? & ? & ?).
      exists s1, s2, cs1. simpl. auto.
  - destruct (starK_sound c k _ _ _ _ H) as (s1 & s2 & ? & ? & ?).
    exists s1, s2, cs. auto.
  - destruct (IH1 Hp _ _ _ _ _ _ H) as (s1 & s2 & cs1 & ? & ? & ?).
    eexists s1, s2, _. split; [eassumption|]. split; eassumption.
Qed.

Lemma m_complete (r : regex) :
  plain r = true ->
  forall R (k : K R) seen s1 s2 cs,
    Lang r s1 ->
    (forall cs', k (rev s1 ++ seen) s2 cs' <> None) ->
    m r k seen (s1 ++ s2) cs <> None.
Proof.
  induction r as [|c|r1 IH1 r2 IH2|r1 IH1 r2 IH2|c|i r1 IH1|r1 IH1| |];
    intros Hp R k seen s1 s2 cs HL Hk; simpl in Hp, HL |- *; try discriminate.
  - subst s1. apply Hk.
  - destruct HL as (y & -> & Hy). simpl. rewrite Hy. apply Hk.
  - apply andb_prop in Hp as [Hp1 Hp2].
    destruct HL as (a & b & -> & Ha & Hb). rewrite <- app_assoc.
    apply (IH1 Hp1); [exact Ha|]. intros cs1.
    apply (IH2 Hp2); [exact Hb|]. intros cs2.
    rewrite app_assoc, <- rev_app_distr. apply Hk.
  - apply andb_prop in Hp as [Hp1 Hp2].
    destruct (m r1 k seen (s1 ++ s2) cs) eqn:E; [discriminate|].
    destruct HL as [HL | HL].
    + exfalso. exact (IH1 Hp1 _ k seen s1 s2 cs HL Hk E).
    + exact (IH2 Hp2 _ k seen s1 s2 cs HL Hk).
  - apply starK_complete; [exact HL | apply Hk].
  - apply (IH1 Hp); [exact HL|]. intros cs1. apply Hk.
Qed.

(** A pattern between [^] and [$] is tested against the whole string. *)
Lemma search_after_start (r : regex) :
  forall rest seen, seen <> [] -> search (Seq Bol r) seen rest = None.
Proof.
  induction rest as [|y rest IH]; intros seen Hs; simpl;
    unfold execAt; simpl; destruct seen; try contradiction; auto.
  apply IH. discriminate.
Qed.

Lemma test_anchored (r : regex) (s : jsstring) :
  plain r = true ->
  test (Seq Bol (Seq r Eol)) s = true <-> Lang r s.
Proof.
  intros Hp. unfold test. split.
  - destruct (search (Seq Bol (Seq r Eol)) [] s) as [x|] eqn:E; [intros _|discriminate].
    assert (Hex : execAt (Seq Bol (Seq r Eol)) [] s = Some x).
    { destruct s as [|y s]; simpl in E;
        destruct (execAt (Seq Bol (Seq r Eol)) [] _) eqn:E1; try congruence.
      rewrite search_after_start in E by discriminate. discriminate. }
    unfold execAt in Hex. simpl in Hex.
    destruct (m_sound r Hp _ _ _ _ _ _ Hex) as (s1 & s2 & cs' & -> & HL & Hk).
    simpl in Hk. destruct s2; [|discriminate]. now rewrite app_nil_r.
  - intros HL.
    assert (Hex : execAt (Seq Bol (Seq r Eol)) [] s <> None).
    { unfold execAt. simpl. rewrite <- (app_nil_r s) at 1.
      apply (m_complete r Hp); [exact HL|]. intros cs'. simpl. discriminate. }
    destruct s as [|y s]; simpl;
      destruct (execAt (Seq Bol (Seq r Eol)) [] _); try reflexivity; contradiction.
Qed.

(** A pattern without anchors is tested against every substring. *)
Lemma search_plain (r : regex) :
  plain r = true ->
  forall rest seen,
    search r seen rest <> None <-> exists a b c, rest = a ++ b ++ c /\ Lang r b.
Proof.
  intros Hp. induction rest as [|y rest IH]; intros seen; simpl.
  - destruct (execAt r seen []) as [x|] eqn:E.
    + split; [intros _|discriminate]. unfold execAt in E.
      destruct (m_sound r Hp _ _ _ _ _ _ E) as (s1 & s2 & cs' & Hsplit & HL & _).
      exists [], s1, s2. auto.
    + split; [congruence|]. intros (a & b & c & Hsplit & HL). exfalso.
      symmetry in Hsplit. apply app_eq_nil in Hsplit as [-> Hbc].
      apply app_eq_nil in Hbc as [-> ->].
      unfold execAt in E.
      refine (m_complete r Hp _ _ seen [] [] [] HL _ E). discriminate.
  - destruct (execAt r seen (y :: rest)) as [x|] eqn:E.
    + split; [intros _|discriminate]. unfold execAt in E.
      destruct (m_sound r Hp _ _ _ _ _ _ E) as (s1 & s2 & cs' & Hsplit & HL & _).
      exists [], s1, s2. auto.
    + rewrite IH. split.
      * intros (a & b & c & -> & HL). exists (y :: a), b, c. auto.
      * intros (a & b & c & Hsplit & HL). destruct a as [|z a].
        -- exfalso. simpl in Hsplit. revert E. unfold execAt. rewrite Hsplit.
           apply (m_complete r Hp); [exact HL | discriminate].
        -- injection Hsplit as -> ->. exists a, b, c. auto.
Qed.

Lemma test_plain (r : regex) (s : jsstring) :
  plain r = true ->
  test r s = true <-> exists a b c, s = a ++ b ++ c /\ Lang r b.
Proof.
  intros Hp. rewrite <- (search_plain r Hp s []). unfold test.
  destruct (search r [] s); split; congruence.
Qed.

End MatcherCorrect.

(* ================================================================= *)
(** * The classifier's patterns, read as the rules *)

Ltac eval_u16 :=
  repeat match goal with
    | |- context [u16 ?s] =>
        let v := eval vm_compute in (u16 s) in change (u16 s) with v
    end.

Ltac eval_u16_in H :=
  repeat match type of H with
    | context [u16 ?s] =>
        let v := eval vm_compute in (u16 s) in change (u16 s) with v in H
    end.

Section PatternLanguages.

Import Grader Classifier.

Lemma Lang_Chr (x : code) (s : jsstring) : Lang (Chr x) s <-> s = [x].
Proof.
  simpl. split.
  - intros (y & -> & Hy). apply N.eqb_eq in Hy. now subst.
  - intros ->. exists x. now rewrite N.eqb_refl.
Qed.

Lemma Lang_Plus (c : code -> bool) (s : jsstring) :
  Lang (Plus c) s <-> forallb c s = true /\ s <> [].
Proof.
  simpl. split.
  - intros (s1 & s2 & -> & (y & -> & Hy) & Hall). simpl. rewrite Hy, Hall.
    split; [reflexivity|discriminate].
  - intros [Hall Hne]. destruct s as [|y s]; [contradiction|]. simpl in Hall.
    apply andb_prop in Hall as [Hy Hall]. exists [y], s. split; [reflexivity|].
    split; [exists y; auto | exact Hall].
Qed.

Lemma Lang_Opt (r : regex) (s : jsstring) : Lang (Opt r) s <-> Lang r s \/ s = [].
Proof. reflexivity. Qed.

Lemma Lang_optSign (s : jsstring) : Lang (Opt (Cls isSignUnit)) s <-> optionalSign s.
Proof.
  unfold optionalSign. eval_u16. simpl. split.
  - intros [(y & -> & Hy) | ->]; [|auto]. right. unfold isSignUnit in Hy.
    apply orb_prop in Hy as [Hy | Hy]; apply N.eqb_eq in Hy; subst; auto.
  - intros [-> | [-> | ->]]; [right; reflexivity | left | left];
      eexists; split; reflexivity.
Qed.

Lemma Lang_Lit (w s : jsstring) : w <> [] -> (Lang (Lit w) s <-> s = w).
Proof.
  revert s. induction w as [|x w IH]; intros s Hne; [contradiction|].
  destruct w as [|y w].
  - apply Lang_Chr.
  - change (Lit (x :: y :: w)) with (Seq (Chr x) (Lit (y :: w))).
    cbn [Lang]. split.
    + intros (s1 & s2 & -> & H1 & H2). apply Lang_Chr in H1. subst s1.
      apply IH in H2; [|discriminate]. now subst.
    + intros ->. exists [x], (y :: w). split; [reflexivity|].
      split; [now apply Lang_Chr | apply IH; [discriminate | reflexivity]].
Qed.

(** Rule 1. *)
Lemma choice_spec (t : jsstring) : test choiceRe t = true <-> isChoiceLetter t.
Proof.
  unfold choiceRe. rewrite test_anchored by reflexivity.
  unfold isChoiceLetter, choiceBodyRe. eval_u16. cbn [Lang].
  split; intros (x & -> & Hx); exists x; (split; [reflexivity|]).
  - unfold ignoreCase, canonicalize, isLower, inRange in Hx. cbn [In].
    destruct ((97 <=? x)%N && (x <=? 122)%N) eqn:El;
      rewrite ?andb_true_iff, ?andb_false_iff, ?N.leb_le, ?N.leb_gt in *; lia.
  - unfold ignoreCase, canonicalize, isLower, inRange. cbn [In] in Hx.
    destruct ((97 <=? x)%N && (x <=? 122)%N) eqn:El;
      rewrite ?andb_true_iff, ?andb_false_iff, ?N.leb_le, ?N.leb_gt in *; lia.
Qed.

(** Rule 2, fractions. *)
Lemma fraction_spec (t : jsstring) : test fractionRe t = true <-> isFractionText t.
Proof.
  unfold fractionRe. rewrite test_anchored by reflexivity.
  unfold isFractionText, fractionBodyRe. eval_u16.
  cbn [Lang]. fold (Lang (Opt (Cls isSignUnit))) (Lang (Plus isDigit)) (Lang (Chr SLASH)).
  split.
  - intros (sg & r1 & -> & Hsg & n & r2 & -> & Hn & sl & d & -> & Hsl & Hd).
    apply Lang_optSign in Hsg. apply Lang_Plus in Hn as [Hn Hn0].
    apply Lang_Plus in Hd as [Hd Hd0]. apply Lang_Chr in Hsl. subst sl.
    exists sg, n, d. unfold digits. auto 10.
  - intros (sg & n & d & -> & Hsg & Hn & Hn0 & Hd & Hd0).
    exists sg, (n ++ [SLASH] ++ d). split; [reflexivity|].
    split; [now apply Lang_optSign|].
    exists n, ([SLASH] ++ d). split; [reflexivity|].
    split; [now apply Lang_Plus|].
    exists [SLASH], d. split; [reflexivity|].
    split; [now apply Lang_Chr | now apply Lang_Plus].
Qed.

Lemma Lang_optDot (pt : jsstring) :
  Lang (Opt (Chr DOT)) pt <-> pt = [] \/ pt = u16 ".".
Proof.
  rewrite Lang_Opt, Lang_Chr. eval_u16. unfold DOT. tauto.
Qed.

Lemma Lang_mantissa (s : jsstring) : Lang mantissaRe s <-> isMantissa s.
Proof.
  unfold mantissaRe, isMantissa, digits. cbn [Lang].
  fold (Lang (Opt (Chr DOT))) (Lang (Plus isDigit)).
  split.
  - intros [(ip & r & -> & Hip & pt & fd & -> & Hpt & Hfd)
           |(ip & r & -> & Hip & pt & fd & -> & Hpt & Hfd)].
    + apply Lang_Plus in Hip as [Hip Hip0]. apply Lang_optDot in Hpt.
      exists ip, pt, fd. auto 10.
    + apply Lang_Plus in Hfd as [Hfd Hfd0]. apply Lang_optDot in Hpt.
      exists ip, pt, fd. auto 10.
  - intros (ip & pt & fd & -> & Hip & Hpt & Hfd & [H0 | H0]).
    + left. exists ip, (pt ++ fd). split; [reflexivity|].
      split; [now apply Lang_Plus|]. exists pt, fd.
      split; [reflexivity|]. split; [now apply Lang_optDot | exact Hfd].
    + right. exists ip, (pt ++ fd). split; [reflexivity|].
      split; [exact Hip|]. exists pt, fd.
      split; [reflexivity|]. split; [now apply Lang_optDot | now apply Lang_Plus].
Qed.

Lemma Lang_exponent (s : jsstring) : Lang exponentRe s <-> isExponent s.
Proof.
  unfold exponentRe, isExponent, digits. rewrite Lang_Opt. eval_u16. cbn [Lang].
  fold (Lang (Opt (Cls isSignUnit))) (Lang (Plus isDigit)) (Lang (Chr 101)).
  split.
  - intros [(e & r & -> & He & sg & ds & -> & Hsg & Hds) | ->]; [right|left; reflexivity].
    apply Lang_Chr in He. subst e. apply Lang_optSign in Hsg.
    apply Lang_Plus in Hds as [Hds Hds0]. exists sg, ds. auto.
  - intros [-> | (sg & ds & -> & Hsg & Hds & Hds0)]; [right; reflexivity|left].
    exists [101%N], (sg ++ ds). split; [reflexivity|].
    split; [now apply Lang_Chr|]. exists sg, ds. split; [reflexivity|].
    split; [now apply Lang_optSign | now apply Lang_Plus].
Qed.

(** Rule 2, numbers. *)
Lemma number_spec (t : jsstring) : test numberRe t = true <-> isDecimalText t.
Proof.
  unfold numberRe. rewrite test_anchored by reflexivity.
  unfold isDecimalText, numberBodyRe. cbn [Lang].
  fold (Lang (Opt (Cls isSignUnit))) (Lang mantissaRe) (Lang exponentRe).
  split.
  - intros (sg & r & -> & Hsg & mant & ex & -> & Hm & He).
    exists sg, mant, ex. split; [reflexivity|].
    split; [now apply Lang_optSign|].
    split; [now apply Lang_mantissa | now apply Lang_exponent].
  - intros (sg & mant & ex & -> & Hsg & Hm & He).
    exists sg, (mant ++ ex). split; [reflexivity|].
    split; [now apply Lang_optSign|]. exists mant, ex. split; [reflexivity|].
    split; [now apply Lang_mantissa | now apply Lang_exponent].
Qed.

Ltac pick_disjunct := solve [reflexivity | eassumption | left; pick_disjunct | right; pick_disjunct].

Lemma Lang_algebraRe (b : jsstring) :
  Lang algebraRe b <->
  (exists x, b = [x] /\ (isLower x = true \/ In x algebraUnits)) \/ In b algebraWords.
Proof.
  unfold algebraRe, Str. cbn [Lang].
  repeat match goal with
    | |- context [Lang (Chr ?c) b] =>
        change (Lang (Chr c) b) with (Lang (Lit [c]) b)
    end.
  rewrite !Lang_Lit by (vm_compute; discriminate).
  unfold algebraUnits, algebraWords. eval_u16.
  unfold RADIC, CUBERT, PI, INFTY, SLASH, LPAREN, RPAREN. cbn [In app map].
  split.
  - intros H.
    repeat match type of H with _ \/ _ => destruct H as [H | H] end;
      try (destruct H as (x & -> & Hx); left; exists x; split; [reflexivity|]; left; exact Hx);
      try (subst b; left; eexists; split; [reflexivity|]; right; pick_disjunct);
      try (subst b; right; pick_disjunct).
  - intros [(x & -> & [Hx | Hx]) | H].
    + left. exists x. auto.
    + repeat match type of Hx with _ \/ _ => destruct Hx as [Hx | Hx] end;
        try contradiction; subst x; pick_disjunct.
    + repeat match type of H with _ \/ _ => destruct H as [H | H] end;
        try contradiction; subst b; pick_disjunct.
Qed.

(** Rule 3. *)
Lemma algebra_spec (s : jsstring) : test algebraRe s = true <-> hasAlgebraMark s.
Proof.
  rewrite test_plain by reflexivity. unfold hasAlgebraMark, substring. split.
  - intros (a & b & c & -> & HL). apply Lang_algebraRe in HL as [(x & -> & Hx) | Hw].
    + left. exists x. split; [|exact Hx].
      apply in_or_app. right. left. reflexivity.
    + right. exists b. split; [exact Hw|]. exists a, c. reflexivity.
  - intros [(x & Hin & Hx) | (w & Hw & a & c & ->)].
    + apply in_split in Hin as (a & c & ->). exists a, [x], c.
      split; [reflexivity|]. apply Lang_algebraRe. left. exists x. auto.
    + exists a, w, c. split; [reflexivity|]. apply Lang_algebraRe. right. exact Hw.
Qed.

End PatternLanguages.

Section FractionSplit.

Import Grader.

Lemma lacks_app (sep : code) (a b : jsstring) :
  lacks sep (a ++ b) = lacks sep a && lacks sep b.
Proof. apply forallb_app. Qed.

Lemma split_no_separator (sep : code) (x : jsstring) :
  lacks sep x = true -> split sep x = [x].
Proof.
  induction x as [|c x IH]; simpl; [reflexivity|].
  intros H. apply andb_prop in H as [Hc Hx]. apply negb_true_iff in Hc.
  now rewrite Hc, (IH Hx).
Qed.

Lemma split_one_separator (sep : code) (x d : jsstring) :
  lacks sep x = true -> lacks sep d = true ->
  split sep (x ++ sep :: d) = [x; d].
Proof.
  intros Hx Hd. induction x as [|c x IH]; simpl.
  - now rewrite N.eqb_refl, (split_no_separator sep d Hd).
  - simpl in Hx. apply andb_prop in Hx as [Hc Hx]. apply negb_true_iff in Hc.
    now rewrite Hc, (IH Hx).
Qed.

Lemma digits_no_slash (s : jsstring) : digits s -> lacks SLASH s = true.
Proof.
  unfold digits. induction s as [|c s IH]; simpl; [reflexivity|].
  intros H. apply andb_prop in H as [Hc Hs]. rewrite (IH Hs), andb_true_r.
  unfold isDigit, inRange, SLASH in *. apply negb_true_iff, N.eqb_neq.
  rewrite andb_true_iff, !N.leb_le in Hc. lia.
Qed.

(** The denominator of a fraction text is what [split] puts second. *)
Lemma fraction_denominator (t sg n d : jsstring) :
  t = sg ++ n ++ u16 "/" ++ d -> optionalSign sg -> digits n -> digits d ->
  split SLASH t = [sg ++ n; d].
Proof.
  intros -> Hsg Hn Hd.
  assert (Hx : lacks SLASH (sg ++ n) = true).
  { rewrite lacks_app, (digits_no_slash n Hn), andb_true_r.
    unfold optionalSign in Hsg. eval_u16_in Hsg.
    destruct Hsg as [-> | [-> | ->]]; reflexivity. }
  rewrite app_assoc.
  exact (split_one_separator SLASH (sg ++ n) d Hx (digits_no_slash d Hd)).
Qed.

End FractionSplit.

(** C4, the claim as stated fails on two inputs.  The text 1/0 is a fraction
    with denominator zero and no number, so the stated rules make it
    algebraic (it holds a slash); the code answers numeric.  The text HELLO
    has no lower-case letter and none of the listed marks, so the stated
    rules make it short text; the code answers algebraic. *)
Lemma classifier_rules_counterexample :
  (trim (u16 "1/0") = u16 "1/0"
   /\ ~ isChoiceLetter (u16 "1/0")
   /\ ~ isDecimalText (u16 "1/0")
   /\ ~ isNonZeroFractionText (u16 "1/0")
   /\ hasAlgebraMark (u16 "1/0")
   /\ Classifier.getAnswerType (u16 "1/0") = Classifier.Detected numeric)
  /\ (trim (u16 "HELLO") = u16 "HELLO"
      /\ ~ isChoiceLetter (u16 "HELLO")
      /\ ~ (isFractionText (u16 "HELLO") \/ isDecimalText (u16 "HELLO"))
      /\ ~ hasAlgebraMark (u16 "HELLO")
      /\ u16 "HELLO" <> []
      /\ Classifier.getAnswerType (u16 "HELLO") = Classifier.Detected algebra).
Proof.
  split.
  - split; [vm_compute; reflexivity|].
    split; [rewrite <- choice_spec; vm_compute; discriminate|].
    split; [rewrite <- number_spec; vm_compute; discriminate|].
    split.
    + intros (sg & n & d & Ht & Hsg & Hn & _ & Hd & _ & Hnz).
      pose proof (fraction_denominator _ sg n d Ht Hsg Hn Hd) as Hsplit.
      vm_compute in Hsplit. injection Hsplit as _ <-. apply Hnz. reflexivity.
    + split; [|vm_compute; reflexivity].
      rewrite <- algebra_spec. vm_compute. reflexivity.
  - split; [vm_compute; reflexivity|].
    split; [rewrite <- choice_spec; vm_compute; discriminate|].
    split; [rewrite <- fraction_spec, <- number_spec; vm_compute; intros [H|H]; discriminate|].
    split; [rewrite <- algebra_spec; vm_compute; discriminate|].
    split; [vm_compute; discriminate | vm_compute; reflexivity].
Qed.

(** C4, amended.  [getAnswerType] applies its rules in strict order to the
    trimmed input: a single letter A to D in either case is multiple choice;
    else a fraction text (sign, digits, slash, digits, whatever the
    denominator) or a number (sign, digits around an optional point,
    optional exponent with a lower-case e) is numeric; else a text whose
    lower-cased form holds a letter a to z, one of the root, pi, infinity,
    caret, + - * / ( ) = marks, or one of the words **, sin, cos, tan, log,
    ln is algebraic; else a non-empty text is short text; the empty text is
    unknown.  A, 42, 3.14, x^2 + 4x + 4, summit and the empty string are
    classified multiple choice, numeric, numeric, algebraic, algebraic and
    unknown. *)
Theorem classifier_rules (input : jsstring) :
  let t := trim input in
  (isChoiceLetter t ->
   Classifier.getAnswerType input = Classifier.Detected mc)
  /\ (~ isChoiceLetter t -> isFractionText t \/ isDecimalText t ->
      Classifier.getAnswerType input = Classifier.Detected numeric)
  /\ (~ isChoiceLetter t -> ~ (isFractionText t \/ isDecimalText t) ->
      hasAlgebraMark (toLowerCase t) ->
      Classifier.getAnswerType input = Classifier.Detected algebra)
  /\ (~ isChoiceLetter t -> ~ (isFractionText t \/ isDecimalText t) ->
      ~ hasAlgebraMark (toLowerCase t) -> t <> [] ->
      Classifier.getAnswerType input = Classifier.Detected short)
  /\ (t = [] -> Classifier.getAnswerType input = Classifier.unknown)
  /\ Classifier.getAnswerType (u16 "A") = Classifier.Detected mc
  /\ Classifier.getAnswerType (u16 "42") = Classifier.Detected numeric
  /\ Classifier.getAnswerType (u16 "3.14") = Classifier.Detected numeric
  /\ Classifier.getAnswerType (u16 "x^2 + 4x + 4") = Classifier.Detected algebra
  /\ Classifier.getAnswerType (u16 "summit") = Classifier.Detected algebra
  /\ Classifier.getAnswerType (u16 "") = Classifier.unknown.
Proof.
  cbv zeta. unfold Classifier.getAnswerType.
  pose proof (choice_spec (trim input)) as Hc.
  pose proof (fraction_spec (trim input)) as Hf.
  pose proof (number_spec (trim input)) as Hn.
  pose proof (algebra_spec (toLowerCase (trim input))) as Ha.
  split; [|split; [|split; [|split; [|split]]]].
  - intros H. apply Hc in H. now rewrite H.
  - intros H1 H2.
    destruct (test Classifier.choiceRe (trim input)); [exfalso; tauto|].
    destruct H2 as [H2 | H2]; [apply Hf in H2 | apply Hn in H2]; rewrite H2;
      rewrite ?orb_true_r; reflexivity.
  - intros H1 H2 H3.
    destruct (test Classifier.choiceRe (trim input)); [exfalso; tauto|].
    destruct (test Grader.fractionRe (trim input)); [exfalso; tauto|].
    destruct (test Classifier.numberRe (trim input)); [exfalso; tauto|].
    apply Ha in H3. now rewrite H3.
  - intros H1 H2 H3 H4.
    destruct (test Classifier.choiceRe (trim input)); [exfalso; tauto|].
    destruct (test Grader.fractionRe (trim input)); [exfalso; tauto|].
    destruct (test Classifier.numberRe (trim input)); [exfalso; tauto|].
    destruct (test Classifier.algebraRe (toLowerCase (trim input))); [exfalso; tauto|].
    destruct (trim input); [contradiction | reflexivity].
  - intros ->. reflexivity.
  - repeat split; vm_compute; reflexivity.
Qed.
